(** * gssh: an ssh wrapper resolving host profiles (main.go)

    Shallow embedding of [main.go]: the target lister, the configuration
    merge done through viper, the post-merge validation, the ssh argument
    builder and the command renderer, followed by the properties of each.

    Go strings are byte sequences: they are [string] here, one [ascii]
    per byte.  Go [int] is [Z]; the program does no arithmetic on the one
    [int] it handles (the port), so no wrap-around arises. *)

From Stdlib Require Import ZArith String Ascii List Bool Lia.
From Stdlib Require Import DecimalString DecimalZ.
From Stdlib Require Import Sorted Permutation.
Import ListNotations.

Open Scope string_scope.
Open Scope list_scope.

(** ** The Go standard library functions the program calls *)

Module strings.

(** [strings.IndexByte(s, c) >= 0]. *)
Fixpoint ContainsByte (s : string) (c : ascii) : bool :=
  match s with
  | EmptyString => false
  | String d s' => Ascii.eqb d c || ContainsByte s' c
  end.

(** [strings.ContainsAny(s, chars)].  For a [chars] made of ASCII bytes
    only (the one call site passes space, tab, double and single quote)
    Go builds an ASCII set and scans [s] byte by byte. *)
Fixpoint ContainsAny (s chars : string) : bool :=
  match s with
  | EmptyString => false
  | String c s' => ContainsByte chars c || ContainsAny s' chars
  end.

(** [strings.HasPrefix]. *)
Definition HasPrefix (s pre : string) : bool := String.prefix pre s.

(** [strings.ReplaceAll(s, old, new)] for a non-empty [old]: the
    non-overlapping occurrences of [old] are replaced left to right.
    [skip] counts the bytes of a matched occurrence still to be dropped.
    (An empty [old], which inserts [new] around every rune, does not
    occur in the program and is left as the identity.) *)
Fixpoint replace_from (skip : nat) (s old new : string) : string :=
  match s with
  | EmptyString => EmptyString
  | String c s' =>
      match skip with
      | S k => replace_from k s' old new
      | O =>
          if HasPrefix s old
          then (new ++ replace_from (String.length old - 1) s' old new)%string
          else String c (replace_from 0 s' old new)
      end
  end.

Definition ReplaceAll (s old new : string) : string :=
  match old with
  | EmptyString => s
  | _ => replace_from 0 s old new
  end.

(** [strings.Join(elems, sep)]. *)
Definition Join (elems : list string) (sep : string) : string :=
  String.concat sep elems.

(** [strings.HasSuffix(s, suffix)]:
    [len(s) >= len(suffix) && s[len(s)-len(suffix):] == suffix]. *)
Definition HasSuffix (s suffix : string) : bool :=
  (String.length suffix <=? String.length s)%nat
  && String.eqb
       (substring (String.length s - String.length suffix)
                  (String.length suffix) s)
       suffix.

(** [strings.TrimSuffix(s, suffix)]: [s] without the trailing [suffix],
    or [s] itself when it does not end with [suffix]. *)
Definition TrimSuffix (s suffix : string) : string :=
  if HasSuffix s suffix
  then substring 0 (String.length s - String.length suffix) s
  else s.

Definition lower_byte (c : ascii) : ascii :=
  let n := nat_of_ascii c in
  if ((65 <=? n) && (n <=? 90))%nat then ascii_of_nat (n + 32) else c.

Definition upper_byte (c : ascii) : ascii :=
  let n := nat_of_ascii c in
  if ((97 <=? n) && (n <=? 122))%nat then ascii_of_nat (n - 32) else c.

Fixpoint map_bytes (f : ascii -> ascii) (s : string) : string :=
  match s with
  | EmptyString => EmptyString
  | String c s' => String (f c) (map_bytes f s')
  end.

(** [strings.ToLower] and [strings.ToUpper] on ASCII input, where Go
    maps the bytes ['A'..'Z'] (['a'..'z']) and keeps the others.  On a
    string with bytes above 127 Go maps runes instead; no rune outside
    ASCII lowers to one of [. y a m l], so the comparison of a lowered
    extension with [".yaml"] and [".yml"] in [listTargets] is decided
    the same way by this byte map. *)
Definition ToLower (s : string) : string := map_bytes lower_byte s.
Definition ToUpper (s : string) : string := map_bytes upper_byte s.

End strings.

Module filepath.

(** [filepath.Ext(path)]:
<<
    for i := len(path) - 1; i >= 0 && !os.IsPathSeparator(path[i]); i-- {
        if path[i] == '.' { return path[i:] }
    }
    return ""
>>
    with [n = i + 1] and ['/'] as the path separator. *)
Fixpoint Ext_loop (path : string) (n : nat) : string :=
  match n with
  | O => ""
  | S i =>
      match String.get i path with
      | None => ""
      | Some c =>
          if Ascii.eqb c "/" then ""
          else if Ascii.eqb c "."
               then substring i (String.length path - i) path
               else Ext_loop path i
      end
  end.

Definition Ext (path : string) : string :=
  Ext_loop path (String.length path).

End filepath.

Module sort.

(** [sort.Strings(x)] sorts in increasing byte-wise order.  Equal
    strings cannot be told apart, so the result is the one sorted
    arrangement of the input whatever the algorithm; it is computed
    here by insertion. *)
Fixpoint insert (x : string) (l : list string) : list string :=
  match l with
  | [] => [x]
  | y :: l' => if String.leb x y then x :: l else y :: insert x l'
  end.

Fixpoint Strings (l : list string) : list string :=
  match l with
  | [] => []
  | x :: l' => insert x (Strings l')
  end.

End sort.

Module fmt.

(** [fmt.Sprintf("%d", n)]: the decimal digits of [n], with a leading
    minus sign for a negative [n]. *)
Definition Sprintf_d (n : Z) : string :=
  NilZero.string_of_int (Z.to_int n).

(** The inverse reading of a decimal numeral. *)
Definition parse_d (s : string) : option Z :=
  option_map Z.of_int (NilZero.int_of_string s).

End fmt.

(** ** The host profile *)

Record HostConfig : Type := mkHostConfig {
  Host : string;
  User : string;
  Port : Z;
  Identity : string
}.

Definition Version : string := "1.0.1".

(** ** Argument builder and command renderer *)

(** [buildSSHArgs], with the successive values of [args] named. *)
Definition buildSSHArgs (cfg : HostConfig) (remoteCmd : list string)
  : list string :=
  let args := [] in
  let args :=
    if negb (String.eqb (Identity cfg) "")
    then args ++ ["-i"; Identity cfg]
    else args in
  let args :=
    if negb (Z.eqb (Port cfg) 0) && negb (Z.eqb (Port cfg) 22)
    then args ++ ["-p"; fmt.Sprintf_d (Port cfg)]
    else args in
  let dest := Host cfg in
  let dest :=
    if negb (String.eqb (User cfg) "")
    then (User cfg ++ "@" ++ Host cfg)%string
    else dest in
  let args := args ++ [dest] in
  let args :=
    if (0 <? List.length remoteCmd)%nat
    then args ++ remoteCmd
    else args in
  args.

(** The bytes that have no plain literal: the tab and the double quote. *)
Definition tab : ascii := ascii_of_nat 9.
Definition dquote : ascii := ascii_of_nat 34.
Definition backslash : ascii := ascii_of_nat 92.

(** The set of bytes [needsQuoting] looks for: space, tab, double quote
    and single quote, in the order of the source literal. *)
Definition quoting_chars : string :=
  String " " (String tab (String dquote (String "'" EmptyString))).

Definition needsQuoting (s : string) : bool :=
  strings.ContainsAny s quoting_chars.

Definition quote (s : string) : string :=
  let r := strings.ReplaceAll s "\" "\\" in
  let r := strings.ReplaceAll r (String dquote "") (String backslash (String dquote "")) in
  (String dquote "" ++ r ++ String dquote "")%string.

(** [renderCommand]: the [for] loop over [args] appends one part per
    argument to [parts]. *)
Fixpoint renderCommand_loop (parts : list string) (args : list string)
  : list string :=
  match args with
  | [] => parts
  | a :: rest =>
      if needsQuoting a
      then renderCommand_loop (parts ++ [quote a]) rest
      else renderCommand_loop (parts ++ [a]) rest
  end.

Definition renderCommand (cmd : string) (args : list string) : string :=
  let parts := [cmd] in
  let parts := renderCommand_loop parts args in
  strings.Join parts " ".



(** ** Target lister *)

(** Go's [(T, error)] results: [Err e] carries the text of the error. *)
Inductive Result (A : Type) : Type :=
| Ok (a : A)
| Err (e : string).
Arguments Ok {A} a.
Arguments Err {A} e.

(** What [listTargets] uses of an [os.DirEntry]. *)
Record DirEntry : Type := mkDirEntry {
  Name : string;
  IsDir : bool
}.

(** The [for] loop of [listTargets] over the directory entries, [out]
    being the slice built so far. *)
Fixpoint listTargets_loop (out : list string) (entries : list DirEntry)
  : list string :=
  match entries with
  | [] => out
  | e :: rest =>
      if IsDir e then listTargets_loop out rest
      else
        let name := Name e in
        let ext := strings.ToLower (filepath.Ext name) in
        if String.eqb ext ".yaml" || String.eqb ext ".yml"
        then
          let base := strings.TrimSuffix name ext in
          listTargets_loop (out ++ [base]) rest
        else listTargets_loop out rest
  end.

(** [listTargets(dir)], given what [os.ReadDir(dir)] answers. *)
Definition listTargets (ReadDir : string -> Result (list DirEntry))
    (dir : string) : Result (list string) :=
  match ReadDir dir with
  | Err e => Err e
  | Ok entries =>
      let out := listTargets_loop [] entries in
      Ok (sort.Strings out)
  end.


(** ** Effects of [main]

    A run of [main] writes lines, reads a profile through viper, may
    start the ssh client, and ends either by returning or through
    [os.Exit].  A computation is the trace it leaves together with its
    result; [Exit] stops what follows. *)

Inductive Event : Type :=
| Stdout (line : string)
| Stderr (line : string)
| ReadInConfig (name : string) (paths : list string)
| Run (name : string) (args : list string).

Inductive Res (A : Type) : Type :=
| Ret (a : A)
| Exit (code : Z).
Arguments Ret {A} a.
Arguments Exit {A} code.

Definition IO (A : Type) : Type := (list Event * Res A)%type.

Definition ret {A : Type} (a : A) : IO A := ([], Ret a).

Definition bind {A B : Type} (m : IO A) (f : A -> IO B) : IO B :=
  match m with
  | (t, Ret a) => let (t', r) := f a in (t ++ t', r)
  | (t, Exit code) => (t, Exit code)
  end.

Notation "x <- m ;; k" := (bind m (fun x => k))
  (at level 100, m at next level, right associativity).
Notation "m ;;; k" := (bind m (fun _ => k))
  (at level 100, right associativity).

Definition emit (e : Event) : IO unit := ([e], Ret tt).

Definition os_Exit {A : Type} (code : Z) : IO A := ([], Exit code).

Definition trace {A : Type} (m : IO A) : list Event := fst m.

(** The exit status of the process whose [main] is [m]: returning from
    [main] ends the process with status 0. *)
Definition exit_status (m : IO unit) : Z :=
  match snd m with
  | Ret _ => 0%Z
  | Exit code => code
  end.

Definition newline : string := String (ascii_of_nat 10) EmptyString.

(** [fmt.Println] of an already spaced line. *)
Definition Println (line : string) : IO unit :=
  emit (Stdout (line ++ newline)).

(** [fatal(format, args...)], [msg] being the formatted message. *)
Definition fatal {A : Type} (msg : string) : IO A :=
  emit (Stderr ("error: " ++ msg ++ newline)) ;;;
  os_Exit 1.

(** [must(err)] applied to the error of a call, whose value it passes on. *)
Definition must {A : Type} (r : Result A) : IO A :=
  match r with
  | Ok a => ret a
  | Err e => fatal e
  end.

(** ** The flags and viper

    The libraries [pflag], [viper] and [cast] are not part of the
    program; what [main] uses of them is modelled here from their
    documented behaviour: a bound flag counts only when it was given on
    the command line, an environment variable only when it is set to a
    non-empty value, and a lookup tries flag, environment, configuration
    file, default and, last, the default value of a bound flag. *)

(** A value of Go's [any], as far as flags and profiles hold them
    (strings, integers and booleans). *)
Inductive any : Type :=
| ANil
| AString (s : string)
| AInt (n : Z)
| ABool (b : bool).

Module pflag.

Record Flag : Type := mkFlag {
  Name : string;
  Value : any;
  Changed : bool
}.

Fixpoint Lookup (fs : list Flag) (name : string) : option Flag :=
  match fs with
  | [] => None
  | f :: fs' => if String.eqb (Name f) name then Some f else Lookup fs' name
  end.

End pflag.

(** The command line after a successful [pflag.Parse]: for each flag the
    value given, if any, and the trailing arguments. *)
Record CommandLine : Type := mkCommandLine {
  opt_target : option string;
  opt_config : option string;
  opt_host : option string;
  opt_user : option string;
  opt_port : option Z;
  opt_identity : option string;
  opt_list : option bool;
  opt_dry_run : option bool;
  opt_verbose : option bool;
  Args : list string
}.

Definition or_default {A : Type} (o : option A) (d : A) : A :=
  match o with Some a => a | None => d end.

Definition given {A : Type} (o : option A) : bool :=
  match o with Some _ => true | None => false end.

(** The flag variables of [main] after [pflag.Parse], with the defaults
    of their declarations. *)
Definition flagTarget (cl : CommandLine) : string := or_default (opt_target cl) "".
Definition flagConfigDir (cl : CommandLine) : string := or_default (opt_config cl) "hosts".
Definition flagHost (cl : CommandLine) : string := or_default (opt_host cl) "".
Definition flagUser (cl : CommandLine) : string := or_default (opt_user cl) "".
Definition flagPort (cl : CommandLine) : Z := or_default (opt_port cl) 22%Z.
Definition flagIdentity (cl : CommandLine) : string := or_default (opt_identity cl) "".
Definition flagList (cl : CommandLine) : bool := or_default (opt_list cl) false.
Definition flagDryRun (cl : CommandLine) : bool := or_default (opt_dry_run cl) false.
Definition flagVerbose (cl : CommandLine) : bool := or_default (opt_verbose cl) false.

(** [pflag.CommandLine]: the nine flags [main] declares. *)
Definition pflag_CommandLine (cl : CommandLine) : list pflag.Flag :=
  [ pflag.mkFlag "target" (AString (flagTarget cl)) (given (opt_target cl));
    pflag.mkFlag "config" (AString (flagConfigDir cl)) (given (opt_config cl));
    pflag.mkFlag "host" (AString (flagHost cl)) (given (opt_host cl));
    pflag.mkFlag "user" (AString (flagUser cl)) (given (opt_user cl));
    pflag.mkFlag "port" (AInt (flagPort cl)) (given (opt_port cl));
    pflag.mkFlag "identity" (AString (flagIdentity cl)) (given (opt_identity cl));
    pflag.mkFlag "list" (ABool (flagList cl)) (given (opt_list cl));
    pflag.mkFlag "dry-run" (ABool (flagDryRun cl)) (given (opt_dry_run cl));
    pflag.mkFlag "verbose" (ABool (flagVerbose cl)) (given (opt_verbose cl)) ].

(** How [cmd.Run()] ends: without error, with an [*exec.ExitError]
    carrying the exit code of the child, or with another error. *)
Inductive RunResult : Type :=
| RunOk
| RunExitError (code : Z)
| RunError (e : string).

(** What the operating system and the libraries answer during one run.
    [viper_readConfig name type paths] is the search of the profile
    [name] in [paths] and its parsing, the keys in lower case;
    [filepath_Join] and [cast_ToInt_string] ([cast.ToInt] of a string)
    are kept as given, no property below depends on what they compute. *)
Record World : Type := mkWorld {
  os_UserHomeDir : Result string;
  os_LookupEnv : string -> option string;
  os_ReadDir : string -> Result (list DirEntry);
  filepath_Join : string -> string -> string;
  cast_ToInt_string : string -> Z;
  viper_readConfig :
    string -> string -> list string -> Result (string -> option any);
  exec_LookPath : string -> Result string;
  cmd_Run : string -> list string -> RunResult
}.

Module cast.

(** [cast.ToString]. *)
Definition ToString (a : any) : string :=
  match a with
  | ANil => ""
  | AString s => s
  | AInt n => fmt.Sprintf_d n
  | ABool b => if b then "true" else "false"
  end.

(** [cast.ToInt]. *)
Definition ToInt (w : World) (a : any) : Z :=
  match a with
  | ANil => 0%Z
  | AString s => cast_ToInt_string w s
  | AInt n => n
  | ABool b => if b then 1%Z else 0%Z
  end.

End cast.

Module viper.

Record Viper : Type := mkViper {
  pflags : list pflag.Flag;
  envPrefix : string;
  envKeyReplacer : option (string * string);
  automaticEnvApplied : bool;
  defaults : list (string * any);
  configName : string;
  configType : string;
  configPaths : list string;
  config : string -> option any
}.

Definition New : Viper :=
  mkViper [] "" None false [] "config" "" [] (fun _ => None).

Definition lower_name (f : pflag.Flag) : pflag.Flag :=
  pflag.mkFlag (strings.ToLower (pflag.Name f)) (pflag.Value f)
               (pflag.Changed f).

Definition BindPFlags (v : Viper) (flags : list pflag.Flag) : Viper :=
  mkViper (map lower_name flags ++ pflags v) (envPrefix v)
          (envKeyReplacer v) (automaticEnvApplied v) (defaults v)
          (configName v) (configType v) (configPaths v) (config v).

Definition SetEnvPrefix (v : Viper) (p : string) : Viper :=
  mkViper (pflags v) p (envKeyReplacer v) (automaticEnvApplied v)
          (defaults v) (configName v) (configType v) (configPaths v)
          (config v).

(** [v.SetEnvKeyReplacer(strings.NewReplacer(old, new))]. *)
Definition SetEnvKeyReplacer (v : Viper) (old new : string) : Viper :=
  mkViper (pflags v) (envPrefix v) (Some (old, new))
          (automaticEnvApplied v) (defaults v) (configName v)
          (configType v) (configPaths v) (config v).

Definition AutomaticEnv (v : Viper) : Viper :=
  mkViper (pflags v) (envPrefix v) (envKeyReplacer v) true (defaults v)
          (configName v) (configType v) (configPaths v) (config v).

Definition SetDefault (v : Viper) (key : string) (value : any) : Viper :=
  mkViper (pflags v) (envPrefix v) (envKeyReplacer v)
          (automaticEnvApplied v)
          ((strings.ToLower key, value) :: defaults v)
          (configName v) (configType v) (configPaths v) (config v).

Definition SetConfigName (v : Viper) (name : string) : Viper :=
  mkViper (pflags v) (envPrefix v) (envKeyReplacer v)
          (automaticEnvApplied v) (defaults v) name (configType v)
          (configPaths v) (config v).

Definition SetConfigType (v : Viper) (type : string) : Viper :=
  mkViper (pflags v) (envPrefix v) (envKeyReplacer v)
          (automaticEnvApplied v) (defaults v) (configName v) type
          (configPaths v) (config v).

(** [v.AddConfigPath(in)]: an empty path or one already listed is not
    added.  (Viper stores the absolute form of the path.) *)
Definition AddConfigPath (v : Viper) (path : string) : Viper :=
  if String.eqb path "" || existsb (String.eqb path) (configPaths v)
  then v
  else mkViper (pflags v) (envPrefix v) (envKeyReplacer v)
               (automaticEnvApplied v) (defaults v) (configName v)
               (configType v) (configPaths v ++ [path]) (config v).

(** [v.ReadInConfig()]. *)
Definition ReadInConfig (w : World) (v : Viper) : Result Viper :=
  match viper_readConfig w (configName v) (configType v) (configPaths v) with
  | Err e => Err e
  | Ok m =>
      Ok (mkViper (pflags v) (envPrefix v) (envKeyReplacer v)
                  (automaticEnvApplied v) (defaults v) (configName v)
                  (configType v) (configPaths v) m)
  end.

Definition mergeWithEnvPrefix (v : Viper) (key : string) : string :=
  if negb (String.eqb (envPrefix v) "")
  then strings.ToUpper (envPrefix v ++ "_" ++ key)
  else strings.ToUpper key.

(** [v.getEnv(key)]: the variable counts when it is set and not empty. *)
Definition getEnv (w : World) (v : Viper) (key : string) : option string :=
  let key :=
    match envKeyReplacer v with
    | Some (old, new) => strings.ReplaceAll key old new
    | None => key
    end in
  match os_LookupEnv w key with
  | Some val => if String.eqb val "" then None else Some val
  | None => None
  end.

Fixpoint searchMap (m : list (string * any)) (key : string) : option any :=
  match m with
  | [] => None
  | (k, a) :: m' => if String.eqb k key then Some a else searchMap m' key
  end.

(** [v.find(lcaseKey, true)]: the first of the changed flag, the
    environment, the configuration file, the defaults and the default
    of a bound flag that has the key. *)
Definition find (w : World) (v : Viper) (lcaseKey : string) : any :=
  let flag := pflag.Lookup (pflags v) lcaseKey in
  let changed :=
    match flag with
    | Some f => if pflag.Changed f then Some (pflag.Value f) else None
    | None => None
    end in
  match changed with
  | Some a => a
  | None =>
      match
        (if automaticEnvApplied v
         then getEnv w v (mergeWithEnvPrefix v lcaseKey)
         else None)
      with
      | Some val => AString val
      | None =>
          match config v lcaseKey with
          | Some a => a
          | None =>
              match searchMap (defaults v) lcaseKey with
              | Some a => a
              | None =>
                  match flag with
                  | Some f => pflag.Value f
                  | None => ANil
                  end
              end
          end
      end
  end.

End viper.

Module viper_get.

(** [v.Get(key)], [v.GetString(key)] and [v.GetInt(key)]. *)
Definition Get (w : World) (v : viper.Viper) (key : string) : any :=
  viper.find w v (strings.ToLower key).

Definition GetString (w : World) (v : viper.Viper) (key : string) : string :=
  cast.ToString (Get w v key).

Definition GetInt (w : World) (v : viper.Viper) (key : string) : Z :=
  cast.ToInt w (Get w v key).

End viper_get.

(** ** [main], phase by phase *)

(** Lines 63 to 71: binding of flags and environment, defaults.
    ([BindPFlags] returns no error, so the [must] around it passes.) *)
Definition bindAndDefaults (cl : CommandLine) : viper.Viper :=
  let v := viper.New in
  let v := viper.BindPFlags v (pflag_CommandLine cl) in
  let v := viper.SetEnvPrefix v "GSSH" in
  let v := viper.SetEnvKeyReplacer v "-" "_" in
  let v := viper.AutomaticEnv v in
  let v := viper.SetDefault v "port" (AInt 22) in
  let v := viper.SetDefault v "config" (AString (flagConfigDir cl)) in
  v.

(** Lines 87 to 89: one line per target of a directory. *)
Fixpoint printTargets (targets : list string) (dir : string) : IO unit :=
  match targets with
  | [] => ret tt
  | t :: rest =>
      emit (Stdout (t ++ " (" ++ dir ++ ")" ++ newline)) ;;;
      printTargets rest dir
  end.

(** Lines 84 to 92: the loop over the candidate directories, [found]
    being the flag it maintains. *)
Fixpoint listLoop (w : World) (found : bool) (dirs : list string) : IO bool :=
  match dirs with
  | [] => ret found
  | dir :: rest =>
      match listTargets (os_ReadDir w) dir with
      | Ok targets =>
          if (0 <? List.length targets)%nat
          then printTargets targets dir ;;; listLoop w true rest
          else listLoop w found rest
      | Err _ => listLoop w found rest
      end
  end.

(** Lines 82 to 97: the body of [if flagList]. *)
Definition listMode {A : Type} (w : World) (configDirs : list string) : IO A :=
  found <- listLoop w false configDirs ;;
  (if negb found then Println "No targets found." else ret tt) ;;;
  os_Exit 0.

(** Lines 99 to 109: the profile of the target, when one is named. *)
Definition loadTarget (w : World) (v : viper.Viper) (target : string)
    (configDirs : list string) : IO viper.Viper :=
  if negb (String.eqb target "")
  then
    let v := viper.SetConfigName v target in
    let v := viper.SetConfigType v "yaml" in
    let v := fold_left viper.AddConfigPath configDirs v in
    emit (ReadInConfig (viper.configName v) (viper.configPaths v)) ;;;
    match viper.ReadInConfig w v with
    | Err e =>
        fatal ("failed to read config for target '" ++ target ++ "': " ++ e)
    | Ok v' => ret v'
    end
  else ret v.

(** Lines 112 to 117: the merged profile. *)
Definition mergedConfig (w : World) (v : viper.Viper) : HostConfig :=
  {| Host := viper_get.GetString w v "host";
     User := viper_get.GetString w v "user";
     Port := viper_get.GetInt w v "port";
     Identity := viper_get.GetString w v "identity" |}.

(** Lines 119 to 130: the minimal requirements. *)
Definition validate (cfg : HostConfig) : IO HostConfig :=
  (if String.eqb (Host cfg) ""
   then fatal "host is required. Set --host, GSSH_HOST, or provide a target via --target with host in YAML"
   else ret tt) ;;;
  (if String.eqb (User cfg) "" then ret tt else ret tt) ;;;
  let cfg :=
    if (Port cfg <=? 0)%Z
    then {| Host := Host cfg; User := User cfg; Port := 22;
            Identity := Identity cfg |}
    else cfg in
  ret cfg.

(** Lines 146 to 164: the ssh client is looked up and run. *)
Definition invoke (w : World) (sshArgs : list string) : IO unit :=
  match exec_LookPath w "ssh" with
  | Err e =>
      fatal ("ssh client not found in PATH. Install OpenSSH client and ensure 'ssh' is available: " ++ e)
  | Ok _ => ret tt
  end ;;;
  emit (Run "ssh" sshArgs) ;;;
  match cmd_Run w "ssh" sshArgs with
  | RunOk => ret tt
  | RunExitError code => os_Exit code
  | RunError e => fatal ("ssh execution failed: " ++ e)
  end.

Definition main (cl : CommandLine) (w : World) : IO unit :=
  Println ("gssh wrapper -- version " ++ Version) ;;;
  let v := bindAndDefaults cl in
  homeDir <- must (os_UserHomeDir w) ;;
  let configDirs :=
    [flagConfigDir cl; filepath_Join w homeDir "hosts"] in
  (if flagList cl then listMode w configDirs else ret tt) ;;;
  v <- loadTarget w v (flagTarget cl) configDirs ;;
  let cfg := mergedConfig w v in
  cfg <- validate cfg ;;
  let remoteCmd := Args cl in
  let sshArgs := buildSSHArgs cfg remoteCmd in
  (if flagDryRun cl || flagVerbose cl
   then Println (renderCommand "ssh" sshArgs)
   else ret tt) ;;;
  if flagDryRun cl then ret tt
  else invoke w sshArgs.

(** ** The specification's reading of merge and rendering

    The definitions of this part follow the wording of the design
    document; the theorems below compare them with the code above. *)

(** The environment variable of a flag: the prefix, then the flag name in
    upper case with every dash replaced by an underscore. *)
Definition env_name (flag : string) : string :=
  "GSSH_" ++ strings.ToUpper (strings.ReplaceAll flag "-" "_").

(** An environment variable sets a field when it is set to a non-empty
    value. *)
Definition from_env (w : World) (flag : string) : option string :=
  match os_LookupEnv w (env_name flag) with
  | Some val => if String.eqb val "" then None else Some val
  | None => None
  end.

(** The profile file sets a field when a target is given and its file
    has the key. *)
Definition from_profile (profile : option (string -> option any))
    (key : string) : option any :=
  match profile with
  | Some m => m key
  | None => None
  end.

(** The value of the first source that sets the field, the built-in
    default when none does. *)
Fixpoint first_set {A : Type} (sources : list (option A)) (default : A) : A :=
  match sources with
  | [] => default
  | Some a :: _ => a
  | None :: rest => first_set rest default
  end.

(** Flag, then environment, then profile file, then default, field by
    field. *)
Definition layered (cl : CommandLine) (w : World)
    (profile : option (string -> option any)) : HostConfig :=
  {| Host :=
       first_set [ opt_host cl; from_env w "host";
                   option_map cast.ToString (from_profile profile "host") ] "";
     User :=
       first_set [ opt_user cl; from_env w "user";
                   option_map cast.ToString (from_profile profile "user") ] "";
     Port :=
       first_set [ opt_port cl;
                   option_map (cast_ToInt_string w) (from_env w "port");
                   option_map (cast.ToInt w) (from_profile profile "port") ]
                 22%Z;
     Identity :=
       first_set [ opt_identity cl; from_env w "identity";
                   option_map cast.ToString
                     (from_profile profile "identity") ] "" |}.

(** The directories searched for a profile: the candidate directories in
    their order, an empty or repeated one left out. *)
Fixpoint addPaths (paths dirs : list string) : list string :=
  match dirs with
  | [] => paths
  | d :: rest =>
      addPaths
        (if String.eqb d "" || existsb (String.eqb d) paths then paths
         else paths ++ [d])
        rest
  end.

Definition searchPaths (dirs : list string) : list string :=
  addPaths [] dirs.

(** The two phases of [main] that make the merged profile. *)
Definition resolve (cl : CommandLine) (w : World) (dirs : list string)
  : IO HostConfig :=
  v <- loadTarget w (bindAndDefaults cl) (flagTarget cl) dirs ;;
  ret (mergedConfig w v).

(** The candidate directories of [main]. *)
Definition configDirs (cl : CommandLine) (w : World) (homeDir : string)
  : list string :=
  [flagConfigDir cl; filepath_Join w homeDir "hosts"].

(** The first line [main] prints. *)
Definition banner : Event :=
  Stdout ("gssh wrapper -- version 1.0.1" ++ newline).

Definition no_targets : Event :=
  Stdout ("No targets found." ++ newline).

(** An event that is a reading of a profile. *)
Definition is_ReadInConfig (e : Event) : bool :=
  match e with
  | ReadInConfig _ _ => true
  | _ => false
  end.

(** Resolution before validation: without a target the profile file plays
    no part; with one, the file found for it is the third layer, and a
    failure to find or parse it is the failure of the resolution. *)
Definition resolve_layers (cl : CommandLine) (w : World) (dirs : list string)
  : Result HostConfig :=
  if String.eqb (flagTarget cl) "" then Ok (layered cl w None)
  else
    match viper_readConfig w (flagTarget cl) "yaml" (searchPaths dirs) with
    | Ok m => Ok (layered cl w (Some m))
    | Err e => Err e
    end.

(** The rendering of one byte inside double quotes: a backslash is
    doubled, a double quote gets a backslash before it. *)
Definition escape_byte (c : ascii) : string :=
  if Ascii.eqb c backslash then String backslash (String backslash "")
  else if Ascii.eqb c dquote then String backslash (String dquote "")
  else String c "".

Fixpoint escape (s : string) : string :=
  match s with
  | EmptyString => EmptyString
  | String c s' => (escape_byte c ++ escape s')%string
  end.

(** Every byte [c] of [s] replaced by [new]. *)
Fixpoint subst_byte (c : ascii) (new : string) (s : string) : string :=
  match s with
  | EmptyString => EmptyString
  | String d s' =>
      if Ascii.eqb d c then (new ++ subst_byte c new s')%string
      else String d (subst_byte c new s')
  end.

(** How the renderer shows one argument. *)
Definition shown (a : string) : string :=
  if needsQuoting a then quote a else a.

(** [s] contains the byte [c]. *)
Definition has_byte (s : string) (c : ascii) : Prop :=
  In c (list_ascii_of_string s).

(** An argument is special when it contains a space, a tab, a single
    quote or a double quote. *)
Definition special (a : string) : Prop :=
  has_byte a " " \/ has_byte a tab \/ has_byte a "'" \/ has_byte a dquote.

(** The line [validate] writes when the host is missing. *)
Definition host_required : string :=
  "error: host is required. Set --host, GSSH_HOST, or provide a target via --target with host in YAML"
  ++ newline.

(** [sub] occurs in [s]. *)
Definition occurs_in (sub s : string) : bool :=
  match String.index 0 sub s with
  | Some _ => true
  | None => false
  end.

(** The entries [listTargets] keeps: not a directory, and an extension
    that is [.yaml] or [.yml] once in lower case. *)
Definition is_profile (e : DirEntry) : bool :=
  negb (IsDir e)
  && (let ext := strings.ToLower (filepath.Ext (Name e)) in
      String.eqb ext ".yaml" || String.eqb ext ".yml").

(** The name [listTargets] returns for an entry it keeps. *)
Definition target_of (e : DirEntry) : string :=
  strings.TrimSuffix (Name e) (strings.ToLower (filepath.Ext (Name e))).

(** Increasing byte-wise order. *)
Definition string_le (a b : string) : Prop := String.leb a b = true.

(** The line printed for the target [t] found in [dir]. *)
Definition target_line (dir t : string) : Event :=
  Stdout (t ++ " (" ++ dir ++ ")" ++ newline).

(** What list mode prints for one candidate directory: a line per target,
    nothing when the listing fails. *)
Definition listing (w : World) (dir : string) : list Event :=
  match listTargets (os_ReadDir w) dir with
  | Ok targets => map (target_line dir) targets
  | Err _ => []
  end.

(** A computation that reads no profile. *)
Definition no_read {A : Type} (m : IO A) : Prop :=
  existsb is_ReadInConfig (trace m) = false.

(** ** Sample runs *)

(** A world where the directory [hosts] of the working directory does
    not exist and the one of the home directory holds two profiles. *)
Definition sample_ReadDir (dir : string) : Result (list DirEntry) :=
  if String.eqb dir "/home/u/hosts"
  then Ok [mkDirEntry "ipa.yaml" false; mkDirEntry "web.yml" false]
  else Err "open hosts: no such file or directory".

Definition sample_readConfig (name type : string) (paths : list string)
  : Result (string -> option any) :=
  if String.eqb name "ipa"
  then Ok (fun key => if String.eqb key "host"
                      then Some (AString "ipa.diydev.io") else None)
  else Err "Config File Not Found".

Definition sample_ToInt (s : string) : Z :=
  match fmt.parse_d s with
  | Some n => n
  | None => 0%Z
  end.

Definition sample_world : World :=
  {| os_UserHomeDir := Ok "/home/u";
     os_LookupEnv := fun _ => None;
     os_ReadDir := sample_ReadDir;
     filepath_Join := fun a b => (a ++ "/" ++ b)%string;
     cast_ToInt_string := sample_ToInt;
     viper_readConfig := sample_readConfig;
     exec_LookPath := fun _ => Ok "/usr/bin/ssh";
     cmd_Run := fun _ _ => RunOk |}.

Definition no_flags : CommandLine :=
  mkCommandLine None None None None None None None None None [].

(** [--list]. *)
Definition list_flags : CommandLine :=
  mkCommandLine None None None None None None (Some true) None None [].

(** [--target ipa --dry-run]. *)
Definition target_flags : CommandLine :=
  mkCommandLine (Some "ipa") None None None None None None (Some true) None [].

(** [--host foo --user bob --port 2222 --identity /k --dry-run -- ls -la]. *)
Definition direct_flags : CommandLine :=
  mkCommandLine None None (Some "foo") (Some "bob") (Some 2222%Z) (Some "/k")
                None (Some true) None ["ls"; "-la"].

(** ** Further definitions for the properties of the whole program *)

(** [warn(verbose, format, args...)], [msg] being the formatted message.
    ([main] does not call it.) *)
Definition warn (verbose : bool) (msg : string) : IO unit :=
  if verbose then emit (Stderr ("warn: " ++ msg ++ newline)) else ret tt.

Definition is_Run (e : Event) : bool :=
  match e with
  | Run _ _ => true
  | _ => false
  end.


(** A reader of what [quote] writes, after the opening double quote: a
    backslash gives the next byte its plain meaning, a double quote not
    so protected closes the text and must end it. *)
Fixpoint read_quoted (s : string) : option string :=
  match s with
  | EmptyString => None
  | String c s' =>
      if Ascii.eqb c dquote
      then match s' with
           | EmptyString => Some EmptyString
           | String _ _ => None
           end
      else if Ascii.eqb c backslash
      then match s' with
           | EmptyString => None
           | String d s'' => option_map (String d) (read_quoted s'')
           end
      else option_map (String c) (read_quoted s')
  end.

Definition unquote (s : string) : option string :=
  match s with
  | EmptyString => None
  | String c s' => if Ascii.eqb c dquote then read_quoted s' else None
  end.

(** The profile as [validate] lets it through. *)
Definition coerced (cfg : HostConfig) : HostConfig :=
  {| Host := Host cfg; User := User cfg;
     Port := if (Port cfg <=? 0)%Z then 22%Z else Port cfg;
     Identity := Identity cfg |}.



(** A byte that is neither a dot nor a slash. *)
Definition plain_byte (c : ascii) : bool :=
  negb (Ascii.eqb c "/") && negb (Ascii.eqb c ".").

Fixpoint plain (s : string) : bool :=
  match s with
  | EmptyString => true
  | String c s' => plain_byte c && plain s'
  end.



Definition no_ssh_world : World :=
  {| os_UserHomeDir := Ok "/home/u";
     os_LookupEnv := fun _ => None;
     os_ReadDir := sample_ReadDir;
     filepath_Join := fun a b => (a ++ "/" ++ b)%string;
     cast_ToInt_string := sample_ToInt;
     viper_readConfig := sample_readConfig;
     exec_LookPath := fun _ => Err "executable file not found in $PATH";
     cmd_Run := fun _ _ => RunOk |}.

Definition homeless_world : World :=
  {| os_UserHomeDir := Err "$HOME is not defined";
     os_LookupEnv := fun _ => None;
     os_ReadDir := sample_ReadDir;
     filepath_Join := fun a b => (a ++ "/" ++ b)%string;
     cast_ToInt_string := sample_ToInt;
     viper_readConfig := sample_readConfig;
     exec_LookPath := fun _ => Ok "/usr/bin/ssh";
     cmd_Run := fun _ _ => RunOk |}.

(** [--host foo --verbose -- uptime]. *)
Definition verbose_flags : CommandLine :=
  mkCommandLine None None (Some "foo") None None None None None (Some true)
                ["uptime"].


(** ** Properties of the library models *)

Lemma Sprintf_d_parse (n : Z) : fmt.parse_d (fmt.Sprintf_d n) = Some n.
Proof.
  unfold fmt.parse_d, fmt.Sprintf_d.
  rewrite NilZero.isi.
  - simpl. now rewrite DecimalZ.of_to.
  - destruct n; discriminate || (simpl; intro H; inversion H;
      match goal with
      | E : Pos.to_uint ?p = Decimal.Nil |- _ =>
          pose proof (DecimalPos.Unsigned.to_uint_nonnil p); congruence
      end).
  - destruct n; discriminate || (simpl; intro H; inversion H;
      match goal with
      | E : Pos.to_uint ?p = Decimal.Nil |- _ =>
          pose proof (DecimalPos.Unsigned.to_uint_nonnil p); congruence
      end).
Qed.

Lemma eqb_empty_false (s : string) : s <> "" -> String.eqb s "" = false.
Proof. intro H. now apply String.eqb_neq. Qed.

(** ** Validation *)

Lemma validate_eq (cfg : HostConfig) :
  validate cfg
  = if String.eqb (Host cfg) "" then ([Stderr host_required], Exit 1)
    else ([], Ret {| Host := Host cfg; User := User cfg;
                     Port := if (Port cfg <=? 0)%Z then 22%Z else Port cfg;
                     Identity := Identity cfg |}).
Proof.
  unfold validate.
  destruct (String.eqb (Host cfg) ""); [reflexivity |].
  destruct (String.eqb (User cfg) ""), (Port cfg <=? 0)%Z, cfg; reflexivity.
Qed.

(** ** Argument builder *)

(** The two calls of [TestBuildSSHArgs]. *)
Example buildSSHArgs_test_full :
  buildSSHArgs (mkHostConfig "example.com" "alice" 2222 "/path/to/key")
               ["ls"; "-l"]
  = ["-i"; "/path/to/key"; "-p"; "2222"; "alice@example.com"; "ls"; "-l"].
Proof. reflexivity. Qed.

Example buildSSHArgs_test_bare :
  buildSSHArgs (mkHostConfig "host" "" 22 "") [] = ["host"].
Proof. reflexivity. Qed.

(** C1. For every profile and every sequence of remote command tokens the
    builder returns the identity part, the port part, the destination and
    the tokens, in this order: the identity part is [-i] and the path
    exactly when the path is not empty; the port part is [-p] and the
    decimal numeral of the port (one that reads back as the port) exactly
    when the port is neither 22 nor 0; the destination is [user@host]
    when the user is not empty and [host] otherwise; the tokens follow
    unchanged. *)
Theorem buildSSHArgs_spec (cfg : HostConfig) (remoteCmd : list string) :
  exists (ipart ppart : list string) (dest : string),
    buildSSHArgs cfg remoteCmd = ipart ++ ppart ++ [dest] ++ remoteCmd
    /\ (Identity cfg <> "" -> ipart = ["-i"; Identity cfg])
    /\ (Identity cfg = "" -> ipart = [])
    /\ (Port cfg <> 22%Z /\ Port cfg <> 0%Z ->
        ppart = ["-p"; fmt.Sprintf_d (Port cfg)])
    /\ (Port cfg = 22%Z \/ Port cfg = 0%Z -> ppart = [])
    /\ fmt.parse_d (fmt.Sprintf_d (Port cfg)) = Some (Port cfg)
    /\ (User cfg <> "" -> dest = (User cfg ++ "@" ++ Host cfg)%string)
    /\ (User cfg = "" -> dest = Host cfg).
Proof.
  exists (if String.eqb (Identity cfg) "" then [] else ["-i"; Identity cfg]).
  exists (if (Port cfg =? 0)%Z || (Port cfg =? 22)%Z then []
          else ["-p"; fmt.Sprintf_d (Port cfg)]).
  exists (if String.eqb (User cfg) "" then Host cfg
          else (User cfg ++ "@" ++ Host cfg)%string).
  repeat split.
  - unfold buildSSHArgs.
    destruct (String.eqb (Identity cfg) ""), (Port cfg =? 0)%Z,
      (Port cfg =? 22)%Z, (String.eqb (User cfg) "");
      destruct remoteCmd; simpl; rewrite ?app_nil_r; reflexivity.
  - intro H. now rewrite eqb_empty_false.
  - intro H. now rewrite H.
  - intros [H22 H0].
    apply Z.eqb_neq in H22, H0. now rewrite H22, H0.
  - intros [H | H]; rewrite H; reflexivity.
  - apply Sprintf_d_parse.
  - intro H. now rewrite eqb_empty_false.
  - intro H. now rewrite H.
Qed.

(** C8. The builder does not coerce the port: for a negative port it
    emits [-p] and the numeral of that port, with its minus sign, right
    after the identity part; for the port [-1] the numeral is [-1].  The
    coercion is the validation's: whatever it lets through has a
    positive port, so [main], which builds the arguments from the
    validated profile, never hands a non-positive port to the builder. *)
Theorem buildSSHArgs_negative_port (cfg : HostConfig) (remoteCmd : list string) :
  (Port cfg < 0)%Z ->
  buildSSHArgs cfg remoteCmd
  = (if String.eqb (Identity cfg) "" then [] else ["-i"; Identity cfg])
    ++ ["-p"; fmt.Sprintf_d (Port cfg)]
    ++ [if String.eqb (User cfg) "" then Host cfg
        else (User cfg ++ "@" ++ Host cfg)%string]
    ++ remoteCmd
  /\ buildSSHArgs (mkHostConfig (Host cfg) (User cfg) (-1) (Identity cfg))
                  remoteCmd
     = (if String.eqb (Identity cfg) "" then [] else ["-i"; Identity cfg])
       ++ ["-p"; "-1"]
       ++ [if String.eqb (User cfg) "" then Host cfg
           else (User cfg ++ "@" ++ Host cfg)%string]
       ++ remoteCmd
  /\ (forall tr cfg', validate cfg = (tr, Ret cfg') -> Port cfg' = 22%Z).
Proof.
  intro Hneg.
  assert (H0 : (Port cfg =? 0)%Z = false) by (apply Z.eqb_neq; lia).
  assert (H22 : (Port cfg =? 22)%Z = false) by (apply Z.eqb_neq; lia).
  assert (Hle : (Port cfg <=? 0)%Z = true) by (apply Z.leb_le; lia).
  repeat split.
  - unfold buildSSHArgs. rewrite H0, H22.
    destruct (String.eqb (Identity cfg) ""), (String.eqb (User cfg) "");
      destruct remoteCmd; simpl; rewrite ?app_nil_r; reflexivity.
  - unfold buildSSHArgs. simpl.
    destruct (String.eqb (Identity cfg) ""), (String.eqb (User cfg) "");
      destruct remoteCmd; simpl; rewrite ?app_nil_r; reflexivity.
  - intros tr cfg'. rewrite validate_eq, Hle.
    destruct (String.eqb (Host cfg) ""); intro H; inversion H.
    reflexivity.
Qed.

Lemma buildSSHArgs_negative_port_witness :
  buildSSHArgs (mkHostConfig "host" "" (-1) "") ["uptime"]
  = ["-p"; "-1"; "host"; "uptime"].
Proof.
  exact (proj1 (buildSSHArgs_negative_port
                  (mkHostConfig "host" "" (-1) "") ["uptime"] eq_refl)).
Defined.

(** ** Validation of the merged profile *)

(** C2. After the merge the validation ends the run exactly when the
    host is empty; it then writes one line naming [--host], [GSSH_HOST]
    and [--target] and exits with status 1.  With a host, it never exits:
    it returns the profile with host, user (empty or not) and identity
    unchanged, the port being 22 when the merged port is zero or
    negative and the merged port otherwise. *)
Theorem validate_spec (cfg : HostConfig) :
  ((exists tr code, validate cfg = (tr, Exit code)) <-> Host cfg = "")
  /\ (Host cfg = "" ->
      validate cfg = ([Stderr host_required], Exit 1)
      /\ occurs_in "--host" host_required = true
      /\ occurs_in "GSSH_HOST" host_required = true
      /\ occurs_in "--target" host_required = true)
  /\ (Host cfg <> "" ->
      validate cfg
      = ([], Ret {| Host := Host cfg; User := User cfg;
                    Port := if (Port cfg <=? 0)%Z then 22%Z else Port cfg;
                    Identity := Identity cfg |})).
Proof.
  rewrite validate_eq.
  destruct (String.eqb_spec (Host cfg) "") as [E | N].
  - repeat split; try reflexivity; try tauto.
    intros _. now exists [Stderr host_required], 1%Z.
  - repeat split; try tauto.
    intros (tr & code & H). discriminate H.
Qed.

(** ** Command renderer *)

Lemma ReplaceAll_byte (c : ascii) (new s : string) :
  strings.ReplaceAll s (String c "") new = subst_byte c new s.
Proof.
  unfold strings.ReplaceAll.
  induction s as [| d s IH]; [reflexivity |].
  cbn [strings.replace_from subst_byte strings.HasPrefix String.prefix
       String.length Nat.sub].
  destruct (Ascii.eqb_spec d c) as [E | N].
  - subst d. destruct (ascii_dec c c); [| congruence].
    destruct s; cbn [String.prefix]; now rewrite IH.
  - destruct (ascii_dec c d); [congruence |].
    now rewrite IH.
Qed.

Lemma string_app_assoc (a b c : string) :
  ((a ++ b) ++ c = a ++ (b ++ c))%string.
Proof. induction a as [| x a IH]; simpl; [| rewrite IH]; reflexivity. Qed.

Lemma subst_byte_app (c : ascii) (new a b : string) :
  subst_byte c new (a ++ b) = (subst_byte c new a ++ subst_byte c new b)%string.
Proof.
  induction a as [| d a IH]; [reflexivity |].
  simpl. destruct (Ascii.eqb d c); rewrite IH.
  - now rewrite string_app_assoc.
  - reflexivity.
Qed.

Lemma escape_two_passes (s : string) :
  subst_byte dquote (String backslash (String dquote ""))
             (subst_byte backslash (String backslash (String backslash "")) s)
  = escape s.
Proof.
  induction s as [| d s IH]; [reflexivity |].
  cbn [subst_byte escape]. unfold escape_byte.
  destruct (Ascii.eqb_spec d backslash) as [E | N].
  - subst d. rewrite subst_byte_app, IH. reflexivity.
  - cbn [subst_byte]. rewrite IH.
    destruct (Ascii.eqb d dquote); reflexivity.
Qed.

Lemma quote_escape (s : string) :
  quote s = (String dquote "" ++ escape s ++ String dquote "")%string.
Proof.
  unfold quote.
  change "\" with (String backslash "").
  change "\\" with (String backslash (String backslash "")).
  now rewrite !ReplaceAll_byte, escape_two_passes.
Qed.

Lemma ContainsByte_quoting_chars (c : ascii) :
  strings.ContainsByte quoting_chars c = true
  <-> c = " "%char \/ c = tab \/ c = "'"%char \/ c = dquote.
Proof.
  unfold quoting_chars. cbn [strings.ContainsByte].
  rewrite !orb_true_iff, !Ascii.eqb_eq.
  intuition (auto; discriminate).
Qed.

Lemma needsQuoting_special (a : string) :
  needsQuoting a = true <-> special a.
Proof.
  unfold needsQuoting, special, has_byte.
  induction a as [| c a IH].
  - simpl. intuition discriminate.
  - cbn [strings.ContainsAny list_ascii_of_string In].
    rewrite orb_true_iff, IH, ContainsByte_quoting_chars.
    intuition (subst; auto).
Qed.

Lemma renderCommand_loop_map (args parts : list string) :
  renderCommand_loop parts args = parts ++ map shown args.
Proof.
  revert parts.
  induction args as [| a args IH]; intro parts; simpl.
  - now rewrite app_nil_r.
  - unfold shown at 1.
    destruct (needsQuoting a); rewrite IH, <- app_assoc; reflexivity.
Qed.

Lemma renderCommand_shown (cmd : string) (args : list string) :
  renderCommand cmd args = String.concat " " (cmd :: map shown args).
Proof.
  unfold renderCommand, strings.Join.
  now rewrite renderCommand_loop_map.
Qed.

(** The assertions of [TestRenderCommandAndQuoting]. *)
Example quote_test_space :
  quote "hello world" = (String dquote "hello world" ++ String dquote "")%string.
Proof. reflexivity. Qed.

Example needsQuoting_test :
  needsQuoting "hello world" = true /\ needsQuoting "plain" = false.
Proof. split; reflexivity. Qed.

(** C4. The rendering of a command is its name followed by one part per
    argument, in order, joined by single spaces.  The part of an argument
    that contains a space, a tab, a single quote or a double quote is the
    argument between double quotes with every backslash doubled and every
    double quote preceded by a backslash; the part of any other argument
    is the argument itself.  Quoting [a], double quote, [b] gives double
    quote, [a], backslash, double quote, [b], double quote; quoting [a],
    backslash, [b] gives the same with two backslashes in the middle. *)
Theorem renderCommand_spec (cmd : string) (args : list string) :
  (exists parts : list string,
      renderCommand cmd args = String.concat " " (cmd :: parts)
      /\ Forall2
           (fun a part =>
              (special a ->
               part = (String dquote "" ++ escape a ++ String dquote "")%string)
              /\ (~ special a -> part = a))
           args parts)
  /\ quote (String "a" (String dquote "b"))
     = String dquote (String "a" (String backslash (String dquote
         (String "b" (String dquote "")))))
  /\ quote (String "a" (String backslash "b"))
     = String dquote (String "a" (String backslash (String backslash
         (String "b" (String dquote ""))))).
Proof.
  split; [| split; reflexivity].
  exists (map shown args). split; [apply renderCommand_shown |].
  induction args as [| a args IH]; constructor; [| exact IH].
  unfold shown.
  destruct (needsQuoting a) eqn:E.
  - split; [intros _; apply quote_escape |].
    intro N. apply needsQuoting_special in E. contradiction.
  - split; [| reflexivity].
    intro S. apply needsQuoting_special in S. congruence.
Qed.




(** ** Target lister *)

Lemma insert_perm (x : string) (l : list string) :
  Permutation (sort.insert x l) (x :: l).
Proof.
  induction l as [| y l IH]; simpl; [reflexivity |].
  destruct (String.leb x y); [reflexivity |].
  rewrite IH. apply perm_swap.
Qed.

Lemma Strings_perm (l : list string) : Permutation (sort.Strings l) l.
Proof.
  induction l as [| x l IH]; simpl; [reflexivity |].
  rewrite insert_perm. now constructor.
Qed.

Lemma leb_false_flip (x y : string) :
  String.leb x y = false -> string_le y x.
Proof.
  intro H. destruct (String.leb_total x y) as [T | T]; [congruence | exact T].
Qed.

Lemma insert_sorted (x : string) (l : list string) :
  Sorted string_le l -> Sorted string_le (sort.insert x l).
Proof.
  induction 1 as [| y l Hs IH Hhd]; simpl.
  - repeat constructor.
  - destruct (String.leb x y) eqn:E.
    + repeat constructor; assumption.
    + constructor; [exact IH |].
      destruct l as [| z l]; simpl.
      * constructor. now apply leb_false_flip.
      * destruct (String.leb x z); constructor.
        -- now apply leb_false_flip.
        -- now inversion Hhd.
Qed.

Lemma Strings_sorted (l : list string) : Sorted string_le (sort.Strings l).
Proof.
  induction l as [| x l IH]; simpl; [constructor |].
  now apply insert_sorted.
Qed.

Lemma listTargets_loop_filter (entries : list DirEntry) (out : list string) :
  listTargets_loop out entries
  = out ++ map target_of (filter is_profile entries).
Proof.
  revert out.
  induction entries as [| e entries IH]; intro out; simpl.
  - now rewrite app_nil_r.
  - unfold is_profile at 1.
    destruct (IsDir e); simpl; [apply IH |].
    destruct (_ || _); rewrite IH; [| reflexivity].
    now rewrite <- app_assoc.
Qed.

(** Whatever the directory holds, the listing is the sorted arrangement
    of the names of the kept entries; a directory that cannot be read
    gives the error of the reading. *)
Lemma listTargets_eq (ReadDir : string -> Result (list DirEntry)) (dir : string) :
  listTargets ReadDir dir
  = match ReadDir dir with
    | Ok entries => Ok (sort.Strings (map target_of (filter is_profile entries)))
    | Err e => Err e
    end.
Proof.
  unfold listTargets.
  destruct (ReadDir dir); [| reflexivity].
  now rewrite listTargets_loop_filter.
Qed.

Lemma listTargets_sorted (ReadDir : string -> Result (list DirEntry))
    (dir : string) (targets : list string) :
  listTargets ReadDir dir = Ok targets -> Sorted string_le targets.
Proof.
  rewrite listTargets_eq.
  destruct (ReadDir dir); intro H; inversion H.
  apply Strings_sorted.
Qed.

(** *** Extensions in lower case are stripped *)

Lemma string_length_app (a b : string) :
  String.length (a ++ b) = String.length a + String.length b.
Proof. induction a as [| c a IH]; simpl; [| rewrite IH]; reflexivity. Qed.

Lemma substring_full (s : string) : substring 0 (String.length s) s = s.
Proof. induction s as [| c s IH]; simpl; [| rewrite IH]; reflexivity. Qed.

Lemma substring_split (s : string) (i : nat) :
  i <= String.length s ->
  s = (substring 0 i s ++ substring i (String.length s - i) s)%string.
Proof.
  revert i.
  induction s as [| c s IH]; intros [| i] Hi; simpl in *;
    try reflexivity; try lia.
  - now rewrite substring_full.
  - f_equal. apply IH. lia.
Qed.

Lemma substring_app_left (a b : string) :
  substring 0 (String.length a) (a ++ b) = a.
Proof.
  induction a as [| c a IH]; simpl.
  - destruct b; reflexivity.
  - now rewrite IH.
Qed.

Lemma substring_app_right (a b : string) :
  substring (String.length a) (String.length b) (a ++ b) = b.
Proof.
  induction a as [| c a IH]; simpl; [apply substring_full | exact IH].
Qed.

Lemma TrimSuffix_app (a b : string) : strings.TrimSuffix (a ++ b) b = a.
Proof.
  unfold strings.TrimSuffix, strings.HasSuffix.
  rewrite string_length_app.
  replace (String.length a + String.length b - String.length b)
    with (String.length a) by lia.
  rewrite substring_app_right, String.eqb_refl, substring_app_left.
  replace (String.length b <=? String.length a + String.length b)%nat
    with true by (symmetry; apply Nat.leb_le; lia).
  reflexivity.
Qed.

Lemma Ext_loop_suffix (path : string) (n : nat) :
  exists base, path = (base ++ filepath.Ext_loop path n)%string.
Proof.
  assert (Hnil : exists base, path = (base ++ "")%string).
  { exists path. induction path as [| c p IH]; simpl; [| rewrite <- IH];
      reflexivity. }
  induction n as [| i IH]; simpl; [exact Hnil |].
  destruct (String.get i path) as [c |] eqn:G; [| exact Hnil].
  destruct (Ascii.eqb c "/"); [exact Hnil |].
  destruct (Ascii.eqb c "."); [| exact IH].
  exists (substring 0 i path).
  apply substring_split.
  destruct (Nat.le_gt_cases i (String.length path)) as [L | L]; [exact L |].
  assert (N : String.get i path = None).
  { clear -L. revert i L.
    induction path as [| c p IH]; intros i L; [now destruct i |].
    destruct i as [| i]; simpl in *; [lia |].
    apply IH. lia. }
  congruence.
Qed.

(** The name of a kept entry whose extension is written in lower case is
    the target followed by that extension. *)
Lemma target_of_lower_case (e : DirEntry) :
  strings.ToLower (filepath.Ext (Name e)) = filepath.Ext (Name e) ->
  Name e = (target_of e ++ filepath.Ext (Name e))%string.
Proof.
  intro Hlow. unfold target_of. rewrite Hlow.
  destruct (Ext_loop_suffix (Name e) (String.length (Name e))) as [base Hb].
  fold (filepath.Ext (Name e)) in Hb.
  rewrite Hb at 2. rewrite TrimSuffix_app. exact Hb.
Qed.

(** [TestListTargets]. *)
Example listTargets_test :
  listTargets
    (fun _ => Ok [ mkDirEntry "ipa.yaml" false; mkDirEntry "notyaml.txt" false;
                   mkDirEntry "subdir" true; mkDirEntry "web.yml" false ])
    "tmp"
  = Ok ["ipa"; "web"].
Proof. reflexivity. Qed.

(** C5, at a file whose extension is in upper case. The entry is kept,
    since its extension in lower case is [.yaml], but the suffix trimmed
    from its name is that lower-case extension, which the name does not
    end with: the target returned is the whole file name [Web.YAML], not
    [Web]. *)
Theorem listTargets_upper_case_extension :
  let ReadDir := fun _ : string => Ok [mkDirEntry "Web.YAML" false] in
  filepath.Ext "Web.YAML" = ".YAML"
  /\ strings.TrimSuffix "Web.YAML" (strings.ToLower ".YAML") = "Web.YAML"
  /\ listTargets ReadDir "hosts" = Ok ["Web.YAML"]
  /\ listTargets ReadDir "hosts" <> Ok ["Web"].
Proof.
  repeat split; discriminate.
Qed.

(** C10. When the directory is readable and holds a regular file whose
    whole name is [.yaml] or [.yml], the listing contains the empty
    name. *)
Theorem listTargets_bare_extension
    (ReadDir : string -> Result (list DirEntry)) (dir : string)
    (entries : list DirEntry) (e : DirEntry) :
  ReadDir dir = Ok entries ->
  In e entries ->
  IsDir e = false ->
  Name e = ".yaml" \/ Name e = ".yml" ->
  exists targets, listTargets ReadDir dir = Ok targets /\ In "" targets.
Proof.
  intros Hread Hin Hfile Hname.
  rewrite listTargets_eq, Hread.
  eexists. split; [reflexivity |].
  apply (Permutation_in _ (Permutation_sym (Strings_perm _))).
  apply in_map_iff. exists e. split.
  - unfold target_of. destruct Hname as [-> | ->]; reflexivity.
  - apply filter_In. split; [exact Hin |].
    unfold is_profile. rewrite Hfile.
    destruct Hname as [-> | ->]; reflexivity.
Qed.

Lemma listTargets_bare_extension_witness :
  exists targets,
    listTargets
      (fun _ => Ok [mkDirEntry "ipa.yaml" false; mkDirEntry ".yml" false])
      "hosts"
    = Ok targets /\ In "" targets.
Proof.
  apply (listTargets_bare_extension
           (fun _ => Ok [mkDirEntry "ipa.yaml" false; mkDirEntry ".yml" false])
           "hosts"
           [mkDirEntry "ipa.yaml" false; mkDirEntry ".yml" false]
           (mkDirEntry ".yml" false)).
  - reflexivity.
  - simpl. right. left. reflexivity.
  - reflexivity.
  - right. reflexivity.
Defined.

(** ** Merge of the sources *)

Lemma with_paths_id (v : viper.Viper) :
  viper.mkViper (viper.pflags v) (viper.envPrefix v) (viper.envKeyReplacer v)
    (viper.automaticEnvApplied v) (viper.defaults v) (viper.configName v)
    (viper.configType v) (viper.configPaths v) (viper.config v) = v.
Proof. now destruct v. Qed.

Lemma AddConfigPath_fold (dirs : list string) (v : viper.Viper) :
  fold_left viper.AddConfigPath dirs v
  = viper.mkViper (viper.pflags v) (viper.envPrefix v)
      (viper.envKeyReplacer v) (viper.automaticEnvApplied v)
      (viper.defaults v) (viper.configName v) (viper.configType v)
      (addPaths (viper.configPaths v) dirs) (viper.config v).
Proof.
  revert v.
  induction dirs as [| d dirs IH]; intro v; simpl.
  - symmetry. apply with_paths_id.
  - rewrite IH. unfold viper.AddConfigPath.
    destruct (String.eqb d "" || existsb (String.eqb d) (viper.configPaths v));
      reflexivity.
Qed.

Lemma find_bound (w : World) (v : viper.Viper) (key : string) (f : pflag.Flag) :
  pflag.Lookup (viper.pflags v) key = Some f ->
  viper.automaticEnvApplied v = true ->
  viper.find w v key
  = if pflag.Changed f then pflag.Value f
    else match viper.getEnv w v (viper.mergeWithEnvPrefix v key) with
         | Some val => AString val
         | None =>
             match viper.config v key with
             | Some a => a
             | None =>
                 match viper.searchMap (viper.defaults v) key with
                 | Some a => a
                 | None => pflag.Value f
                 end
             end
         end.
Proof.
  intros Hf Henv. unfold viper.find. rewrite Hf, Henv.
  destruct (pflag.Changed f); reflexivity.
Qed.

(** The lookup of one of the four profile keys in the viper [main] has
    set up, whatever the profile [m] loaded into it. *)
Ltac find_field flag :=
  unfold viper_get.GetString, viper_get.GetInt, viper_get.Get;
  match goal with
  | |- context [strings.ToLower ?k] =>
      let k' := eval vm_compute in (strings.ToLower k) in
      change (strings.ToLower k) with k'
  end;
  rewrite (find_bound _ _ _ flag) by reflexivity;
  match goal with
  | |- context [viper.getEnv ?w ?v (viper.mergeWithEnvPrefix ?v ?k)] =>
      change (viper.getEnv w v (viper.mergeWithEnvPrefix v k))
        with (from_env w k)
  end;
  cbn [pflag.Changed pflag.Value viper.config viper.defaults first_set
       from_profile option_map given].

Lemma mergedConfig_layers (cl : CommandLine) (w : World)
    (name type : string) (paths : list string) (m : string -> option any) :
  mergedConfig w
    (viper.mkViper (viper.pflags (bindAndDefaults cl)) "GSSH"
       (Some ("-", "_")) true (viper.defaults (bindAndDefaults cl))
       name type paths m)
  = layered cl w (Some m).
Proof.
  unfold mergedConfig, layered; f_equal.
  - find_field (pflag.mkFlag "host" (AString (flagHost cl)) (given (opt_host cl))).
    unfold flagHost.
    destruct (opt_host cl), (from_env w "host"), (m "host"); reflexivity.
  - find_field (pflag.mkFlag "user" (AString (flagUser cl)) (given (opt_user cl))).
    unfold flagUser.
    destruct (opt_user cl), (from_env w "user"), (m "user"); reflexivity.
  - find_field (pflag.mkFlag "port" (AInt (flagPort cl)) (given (opt_port cl))).
    unfold flagPort.
    destruct (opt_port cl), (from_env w "port"), (m "port"); reflexivity.
  - find_field (pflag.mkFlag "identity" (AString (flagIdentity cl))
                  (given (opt_identity cl))).
    unfold flagIdentity.
    destruct (opt_identity cl), (from_env w "identity"), (m "identity");
      reflexivity.
Qed.

Lemma layered_no_profile (cl : CommandLine) (w : World) :
  layered cl w (Some (fun _ => None)) = layered cl w None.
Proof. reflexivity. Qed.

Lemma mergedConfig_no_profile (cl : CommandLine) (w : World) :
  mergedConfig w (bindAndDefaults cl) = layered cl w None.
Proof.
  rewrite <- layered_no_profile.
  exact (mergedConfig_layers cl w "config" "" [] (fun _ => None)).
Qed.

Lemma resolve_eq (cl : CommandLine) (w : World) (dirs : list string) :
  resolve cl w dirs
  = if String.eqb (flagTarget cl) "" then ([], Ret (layered cl w None))
    else
      match viper_readConfig w (flagTarget cl) "yaml" (searchPaths dirs) with
      | Ok m =>
          ([ReadInConfig (flagTarget cl) (searchPaths dirs)],
           Ret (layered cl w (Some m)))
      | Err e =>
          ([ReadInConfig (flagTarget cl) (searchPaths dirs);
            Stderr ("error: failed to read config for target '"
                    ++ flagTarget cl ++ "': " ++ e ++ newline)],
           Exit 1)
      end.
Proof.
  unfold resolve, loadTarget.
  destruct (String.eqb (flagTarget cl) "").
  - cbn [negb]. unfold bind, ret. now rewrite mergedConfig_no_profile.
  - cbn [negb]. rewrite AddConfigPath_fold.
    unfold viper.ReadInConfig.
    cbn [viper.configName viper.configType viper.configPaths
         viper.SetConfigName viper.SetConfigType viper.pflags
         viper.envPrefix viper.envKeyReplacer viper.automaticEnvApplied
         viper.defaults viper.config].
    change (addPaths (viper.configPaths (bindAndDefaults cl)) dirs)
      with (searchPaths dirs).
    destruct (viper_readConfig w (flagTarget cl) "yaml" (searchPaths dirs))
      as [m | e].
    + unfold bind, emit, ret.
      now rewrite mergedConfig_layers.
    + unfold fatal, bind, emit, os_Exit. cbn [app].
      now rewrite !string_app_assoc.
Qed.

(** C3. The merged profile is, field by field, the value of the first
    source that sets the field, in the order flag given on the command
    line, environment variable set to a non-empty value ([GSSH_HOST],
    [GSSH_USER], [GSSH_PORT], [GSSH_IDENTITY]: the prefix and the flag
    name in upper case, dashes turned into underscores), profile file of
    the target when a target is named, built-in default (22 for the
    port, the empty string for the others).  Without a target the profile
    file is no source; with one, the resolution ends with status 1 when
    its file cannot be found or parsed. *)
Theorem resolve_precedence (cl : CommandLine) (w : World) (dirs : list string) :
  snd (resolve cl w dirs)
  = match resolve_layers cl w dirs with
    | Ok cfg => Ret cfg
    | Err _ => Exit 1
    end
  /\ env_name "host" = "GSSH_HOST"
  /\ env_name "user" = "GSSH_USER"
  /\ env_name "port" = "GSSH_PORT"
  /\ env_name "identity" = "GSSH_IDENTITY".
Proof.
  split; [| repeat split].
  rewrite resolve_eq. unfold resolve_layers.
  destruct (String.eqb (flagTarget cl) ""); [reflexivity |].
  destruct (viper_readConfig w (flagTarget cl) "yaml" (searchPaths dirs));
    reflexivity.
Qed.

(** ** The run of [main] *)

Lemma bind_assoc {A B C : Type} (m : IO A) (f : A -> IO B) (g : B -> IO C) :
  bind (bind m f) g = bind m (fun a => bind (f a) g).
Proof.
  destruct m as [t [a | code]]; simpl; [| reflexivity].
  destruct (f a) as [t' [b | code]]; simpl; [| reflexivity].
  destruct (g b) as [t'' r]. now rewrite app_assoc.
Qed.

Lemma bind_ret_l {A B : Type} (a : A) (f : A -> IO B) :
  bind (ret a) f = f a.
Proof. unfold bind, ret. now destruct (f a). Qed.

Lemma bind_ext {A B : Type} (m : IO A) (f g : A -> IO B) :
  (forall a, f a = g a) -> bind m f = bind m g.
Proof.
  intro H. destruct m as [t [a | code]]; simpl; [| reflexivity].
  now rewrite H.
Qed.

(** [main] runs [resolve] on its candidate directories. *)
Lemma main_resolve (cl : CommandLine) (w : World) :
  main cl w
  = (Println ("gssh wrapper -- version " ++ Version) ;;;
     homeDir <- must (os_UserHomeDir w) ;;
     (if flagList cl then listMode w (configDirs cl w homeDir) else ret tt) ;;;
     cfg <- resolve cl w (configDirs cl w homeDir) ;;
     cfg <- validate cfg ;;
     let sshArgs := buildSSHArgs cfg (Args cl) in
     (if flagDryRun cl || flagVerbose cl
      then Println (renderCommand "ssh" sshArgs)
      else ret tt) ;;;
     if flagDryRun cl then ret tt else invoke w sshArgs).
Proof.
  unfold main, resolve, configDirs.
  apply bind_ext; intros _.
  apply bind_ext; intro homeDir. cbv zeta.
  apply bind_ext; intros _.
  rewrite bind_assoc.
  apply bind_ext; intro v.
  now rewrite bind_ret_l.
Qed.

Lemma printTargets_eq (targets : list string) (dir : string) :
  printTargets targets dir = (map (target_line dir) targets, Ret tt).
Proof.
  induction targets as [| t targets IH]; [reflexivity |].
  simpl. now rewrite IH.
Qed.

Lemma listLoop_eq (w : World) (dirs : list string) (found : bool) :
  listLoop w found dirs
  = (flat_map (listing w) dirs,
     Ret (match flat_map (listing w) dirs with
          | [] => found
          | _ :: _ => true
          end)).
Proof.
  revert found.
  induction dirs as [| dir dirs IH]; intro found; [reflexivity |].
  cbn [listLoop flat_map]. unfold listing at 1 3.
  destruct (listTargets (os_ReadDir w) dir) as [[| t targets] | e].
  - cbn. apply IH.
  - cbn [List.length Nat.ltb Nat.leb].
    rewrite printTargets_eq, IH. cbn.
    destruct (flat_map (listing w) dirs); reflexivity.
  - apply IH.
Qed.

Lemma listMode_eq {A : Type} (w : World) (dirs : list string) :
  @listMode A w dirs
  = (match flat_map (listing w) dirs with
     | [] => [no_targets]
     | l => l
     end, Exit 0).
Proof.
  unfold listMode. rewrite listLoop_eq.
  destruct (flat_map (listing w) dirs) as [| e l]; cbn.
  - reflexivity.
  - now rewrite app_nil_r.
Qed.



Lemma no_read_ret {A : Type} (a : A) : no_read (ret a).
Proof. reflexivity. Qed.

Lemma no_read_exit {A : Type} (code : Z) : no_read (@os_Exit A code).
Proof. reflexivity. Qed.

Lemma no_read_bind {A B : Type} (m : IO A) (f : A -> IO B) :
  no_read m -> (forall a, no_read (f a)) -> no_read (bind m f).
Proof.
  unfold no_read, trace.
  destruct m as [t [a | code]]; simpl; intros Hm Hf; [| exact Hm].
  specialize (Hf a). destruct (f a) as [t' r]. simpl in *.
  now rewrite existsb_app, Hm, Hf.
Qed.

Lemma no_read_fatal {A : Type} (msg : string) : no_read (@fatal A msg).
Proof. reflexivity. Qed.

Lemma no_read_must {A : Type} (r : Result A) : no_read (must r).
Proof. destruct r; reflexivity. Qed.

Lemma no_read_listMode {A : Type} (w : World) (dirs : list string) :
  no_read (@listMode A w dirs).
Proof.
  unfold no_read, trace. rewrite listMode_eq. cbn [fst].
  assert (H : existsb is_ReadInConfig (flat_map (listing w) dirs) = false).
  { induction dirs as [| dir dirs IH]; [reflexivity |].
    cbn [flat_map]. rewrite existsb_app, IH, orb_false_r.
    unfold listing. destruct (listTargets (os_ReadDir w) dir) as [ts | e];
      [| reflexivity].
    induction ts as [| t ts IHt]; [reflexivity | exact IHt]. }
  destruct (flat_map (listing w) dirs); [reflexivity | exact H].
Qed.

Lemma no_read_validate (cfg : HostConfig) : no_read (validate cfg).
Proof.
  unfold no_read. rewrite validate_eq.
  destruct (String.eqb (Host cfg) ""); reflexivity.
Qed.

Lemma no_read_invoke (w : World) (sshArgs : list string) :
  no_read (invoke w sshArgs).
Proof.
  unfold invoke.
  apply no_read_bind.
  - destruct (exec_LookPath w "ssh"); [apply no_read_ret | apply no_read_fatal].
  - intros _. apply no_read_bind; [reflexivity |].
    intros _. destruct (cmd_Run w "ssh" sshArgs);
      [apply no_read_ret | apply no_read_exit | apply no_read_fatal].
Qed.

Create HintDb no_read.
#[export] Hint Resolve no_read_ret no_read_exit no_read_fatal no_read_must
  no_read_listMode no_read_validate no_read_invoke : no_read.
#[export] Hint Extern 1 (no_read (Println _)) => reflexivity : no_read.

(** C7. When no target is named, the resolution returns the profile made
    of flags, environment and defaults alone, with no event and no exit,
    whatever the candidate directories hold and whatever the search of a
    profile would answer; that profile is the same in any two worlds
    with the same environment; and the whole run of [main] reads no
    profile. *)
Theorem no_target_no_profile (cl : CommandLine) (w : World) :
  flagTarget cl = "" ->
  (forall dirs, resolve cl w dirs = ([], Ret (layered cl w None)))
  /\ (forall w' : World,
         (forall k, os_LookupEnv w' k = os_LookupEnv w k) ->
         (forall s, cast_ToInt_string w' s = cast_ToInt_string w s) ->
         forall dirs dirs', resolve cl w' dirs' = resolve cl w dirs)
  /\ no_read (main cl w).
Proof.
  intro Htarget.
  assert (R : forall w0 dirs, resolve cl w0 dirs = ([], Ret (layered cl w0 None))).
  { intros w0 dirs. rewrite resolve_eq, Htarget. reflexivity. }
  split; [apply R |]. split.
  - intros w' Henv Hcast dirs dirs'. rewrite !R. do 2 f_equal.
    unfold layered, from_env. rewrite !Henv.
    f_equal.
    destruct (opt_port cl); [reflexivity |].
    destruct (os_LookupEnv w (env_name "port")) as [val |]; [| reflexivity].
    destruct (String.eqb val ""); [reflexivity |].
    cbn. now rewrite Hcast.
  - rewrite main_resolve.
    assert (Hres : forall dirs, no_read (resolve cl w dirs)).
    { intro dirs. unfold no_read. now rewrite R. }
    apply no_read_bind; [auto with no_read | intros _].
    apply no_read_bind; [auto with no_read | intro homeDir].
    apply no_read_bind; [destruct (flagList cl) | intros _];
      [auto with no_read .. |].
    apply no_read_bind; [apply Hres | intro cfg].
    apply no_read_bind; [auto with no_read | intro cfg'; cbv zeta].
    apply no_read_bind; [destruct (flagDryRun cl || flagVerbose cl) | intros _];
      [auto with no_read .. |].
    destruct (flagDryRun cl); auto with no_read.
Qed.

Lemma no_target_no_profile_witness :
  resolve direct_flags sample_world ["hosts"; "/home/u/hosts"]
  = ([], Ret (mkHostConfig "foo" "bob" 2222 "/k"))
  /\ no_read (main direct_flags sample_world).
Proof.
  pose proof (no_target_no_profile direct_flags sample_world eq_refl)
    as (R & _ & N).
  split; [exact (R ["hosts"; "/home/u/hosts"]) | exact N].
Defined.

(** The two end-to-end runs of the design document, in dry-run mode. *)
Example main_target_run :
  main target_flags sample_world
  = ([banner; ReadInConfig "ipa" ["hosts"; "/home/u/hosts"];
      Stdout ("ssh ipa.diydev.io" ++ newline)], Ret tt).
Proof. reflexivity. Qed.

Example main_direct_run :
  main direct_flags sample_world
  = ([banner; Stdout ("ssh -i /k -p 2222 bob@foo ls -la" ++ newline)], Ret tt).
Proof. reflexivity. Qed.

Example main_no_host_run :
  main no_flags sample_world = ([banner; Stderr host_required], Exit 1).
Proof. reflexivity. Qed.

(** * Further properties

    ** Target lister: what is listed, and in which order *)

Lemma ascii_compare_refl (c : ascii) : Ascii.compare c c = Eq.
Proof. unfold Ascii.compare. apply N.compare_refl. Qed.

Lemma ascii_compare_lt_trans (x y z : ascii) :
  Ascii.compare x y = Lt -> Ascii.compare y z = Lt -> Ascii.compare x z = Lt.
Proof.
  unfold Ascii.compare. rewrite !N.compare_lt_iff. apply N.lt_trans.
Qed.

Lemma string_compare_trans (a b c : string) :
  String.compare a b <> Gt -> String.compare b c <> Gt ->
  String.compare a c <> Gt.
Proof.
  revert b c.
  induction a as [| x a IH]; intros [| y b] [| z c]; simpl;
    try congruence.
  destruct (Ascii.compare x y) eqn:Exy; [| | congruence];
    destruct (Ascii.compare y z) eqn:Eyz; try congruence.
  - apply Ascii.compare_eq_iff in Exy, Eyz. subst.
    rewrite ascii_compare_refl. apply IH.
  - apply Ascii.compare_eq_iff in Exy. subst. rewrite Eyz. congruence.
  - apply Ascii.compare_eq_iff in Eyz. subst. rewrite Exy. congruence.
  - rewrite (ascii_compare_lt_trans _ _ _ Exy Eyz). congruence.
Qed.

Lemma string_le_trans (a b c : string) :
  string_le a b -> string_le b c -> string_le a c.
Proof.
  unfold string_le, String.leb. intros Hab Hbc.
  pose proof (string_compare_trans a b c) as T.
  destruct (String.compare a b), (String.compare b c),
    (String.compare a c); try reflexivity; try discriminate;
    exfalso; apply T; congruence.
Qed.

Lemma Strings_strongly_sorted (l : list string) :
  StronglySorted string_le (sort.Strings l).
Proof.
  apply Sorted_StronglySorted; [| apply Strings_sorted].
  intros a b c. apply string_le_trans.
Qed.

(** Two sorted arrangements of the same strings are equal. *)
Lemma sorted_unique (l1 l2 : list string) :
  StronglySorted string_le l1 -> StronglySorted string_le l2 ->
  Permutation l1 l2 -> l1 = l2.
Proof.
  intro S1. revert l2.
  induction S1 as [| x l1 S1 IH Hx]; intros l2 S2 P.
  - apply Permutation_nil in P. now subst.
  - destruct S2 as [| y l2 S2 Hy].
    + apply Permutation_sym, Permutation_nil in P. discriminate.
    + assert (E : x = y).
      { assert (Iy : In y (x :: l1))
          by (apply (Permutation_in _ (Permutation_sym P)); now left).
        assert (Ix : In x (y :: l2))
          by (apply (Permutation_in _ P); now left).
        destruct Iy as [-> | Iy]; [reflexivity |].
        destruct Ix as [-> | Ix]; [reflexivity |].
        rewrite Forall_forall in Hx, Hy.
        apply String.leb_antisym; [apply Hx, Iy | apply Hy, Ix]. }
      subst y. f_equal.
      apply IH; [exact S2 | now apply Permutation_cons_inv in P].
Qed.

Lemma filter_perm {A : Type} (f : A -> bool) (l l' : list A) :
  Permutation l l' -> Permutation (filter f l) (filter f l').
Proof.
  induction 1 as [| x l l' _ IH | x y l | l l' l'' _ IH1 _ IH2]; simpl.
  - constructor.
  - destruct (f x); [now constructor | exact IH].
  - destruct (f x), (f y); try reflexivity. apply perm_swap.
  - now transitivity (filter f l').
Qed.

Lemma HasSuffix_split (s suffix : string) :
  strings.HasSuffix s suffix = true ->
  s = (strings.TrimSuffix s suffix ++ suffix)%string.
Proof.
  intro H. unfold strings.TrimSuffix. rewrite H.
  unfold strings.HasSuffix in H.
  apply andb_prop in H as [Hlen Heq].
  apply Nat.leb_le in Hlen. apply String.eqb_eq in Heq.
  rewrite (substring_split s (String.length s - String.length suffix))
    at 1 by lia.
  f_equal.
  replace (String.length s - (String.length s - String.length suffix))
    with (String.length suffix) by lia.
  exact Heq.
Qed.

Lemma get_app_right (a b : string) (n : nat) :
  String.get (String.length a + n) (a ++ b) = String.get n b.
Proof. induction a as [| c a IH]; [reflexivity | exact IH]. Qed.

(** Bytes that are neither dots nor slashes at the end of a path are
    passed over by the loop of [filepath.Ext]. *)
Lemma Ext_loop_plain (p s t : string) :
  plain s = true ->
  filepath.Ext_loop (p ++ s ++ t) (String.length p + String.length s)
  = filepath.Ext_loop (p ++ s ++ t) (String.length p).
Proof.
  revert p.
  induction s as [| c s IH]; intros p Hs.
  - simpl. now rewrite Nat.add_0_r.
  - simpl in Hs. apply andb_prop in Hs as [Hc Hs].
    specialize (IH (p ++ String c "")%string Hs).
    rewrite string_app_assoc in IH. simpl in IH.
    rewrite string_length_app in IH. simpl in IH.
    simpl String.length.
    change (String c s ++ t)%string with (String c (s ++ t)).
    replace (String.length p + S (String.length s))
      with (String.length p + 1 + String.length s) by lia.
    rewrite IH.
    replace (String.length p + 1) with (S (String.length p)) by lia.
    cbn [filepath.Ext_loop].
    replace (String.length p) with (String.length p + 0) at 1 by lia.
    rewrite get_app_right. simpl.
    unfold plain_byte in Hc. apply andb_prop in Hc as [H1 H2].
    apply negb_true_iff in H1, H2. now rewrite H1, H2.
Qed.

Lemma Ext_dot_plain (base rest : string) :
  plain rest = true ->
  filepath.Ext (base ++ String "." rest) = String "." rest.
Proof.
  intro Hp. unfold filepath.Ext.
  rewrite string_length_app. simpl String.length.
  pose proof (Ext_loop_plain (base ++ ".") rest "" Hp) as H.
  assert (E : ((base ++ ".") ++ rest ++ "" = base ++ String "." rest)%string).
  { rewrite string_app_assoc. simpl. f_equal. f_equal.
    clear. induction rest as [| c r IH]; simpl; [| rewrite IH]; reflexivity. }
  rewrite E in H. rewrite string_length_app in H. simpl in H.
  replace (String.length base + S (String.length rest))
    with (String.length base + 1 + String.length rest) by lia.
  rewrite H.
  replace (String.length base + 1) with (S (String.length base)) by lia.
  cbn [filepath.Ext_loop].
  replace (String.length base) with (String.length base + 0) at 1 by lia.
  rewrite get_app_right. simpl.
  rewrite string_length_app. simpl String.length.
  replace (String.length base + S (String.length rest) - String.length base)
    with (String.length (String "." rest)) by (simpl; lia).
  apply substring_app_right.
Qed.

Lemma lower_profile_kept (base ext : string) :
  ext = ".yaml" \/ ext = ".yml" ->
  is_profile (mkDirEntry (base ++ ext) false) = true
  /\ target_of (mkDirEntry (base ++ ext) false) = base.
Proof.
  intros [-> | ->]; unfold is_profile, target_of; cbn [Name IsDir negb andb];
    rewrite Ext_dot_plain by reflexivity; cbn [strings.ToLower];
    (split; [reflexivity |]);
    match goal with
    | |- strings.TrimSuffix _ ?l = _ =>
        let l' := eval vm_compute in l in change l with l'
    end; apply TrimSuffix_app.
Qed.

(** X1. The listing of a readable directory is in increasing order and is
    an arrangement of the names given by the kept entries, one per entry:
    two entries that give the same name are both listed. *)
Theorem listTargets_sorted_arrangement
    (ReadDir : string -> Result (list DirEntry)) (dir : string)
    (entries : list DirEntry) :
  ReadDir dir = Ok entries ->
  exists targets,
    listTargets ReadDir dir = Ok targets
    /\ StronglySorted string_le targets
    /\ Permutation targets (map target_of (filter is_profile entries))
    /\ List.length targets = List.length (filter is_profile entries).
Proof.
  intro Hread. rewrite listTargets_eq, Hread.
  eexists. split; [reflexivity |]. split; [| split].
  - apply Strings_strongly_sorted.
  - apply Strings_perm.
  - rewrite (Permutation_length (Strings_perm _)). apply length_map.
Qed.

Lemma listTargets_sorted_arrangement_witness :
  exists targets,
    listTargets
      (fun _ => Ok [mkDirEntry "web.yml" false; mkDirEntry "ipa.yaml" false;
                    mkDirEntry "ipa.yml" false; mkDirEntry "notes.txt" false])
      "hosts" = Ok targets
    /\ StronglySorted string_le targets
    /\ Permutation targets ["web"; "ipa"; "ipa"]
    /\ List.length targets = 3.
Proof.
  exact (listTargets_sorted_arrangement
           (fun _ => Ok [mkDirEntry "web.yml" false; mkDirEntry "ipa.yaml" false;
                         mkDirEntry "ipa.yml" false; mkDirEntry "notes.txt" false])
           "hosts" _ eq_refl).
Defined.

(** X2. The listing does not depend on the order in which the directory
    gives its entries. *)
Theorem listTargets_order_independent
    (ReadDir ReadDir' : string -> Result (list DirEntry)) (dir : string)
    (entries entries' : list DirEntry) :
  ReadDir dir = Ok entries ->
  ReadDir' dir = Ok entries' ->
  Permutation entries entries' ->
  listTargets ReadDir dir = listTargets ReadDir' dir.
Proof.
  intros H H' P. rewrite !listTargets_eq, H, H'. f_equal.
  apply sorted_unique; try apply Strings_strongly_sorted.
  rewrite !Strings_perm.
  apply Permutation_map, filter_perm, P.
Qed.

Lemma listTargets_order_independent_witness :
  listTargets (fun _ => Ok [mkDirEntry "web.yml" false;
                            mkDirEntry "ipa.yaml" false]) "hosts"
  = listTargets (fun _ => Ok [mkDirEntry "ipa.yaml" false;
                              mkDirEntry "web.yml" false]) "hosts".
Proof.
  apply (listTargets_order_independent _ _ "hosts"
           [mkDirEntry "web.yml" false; mkDirEntry "ipa.yaml" false]
           [mkDirEntry "ipa.yaml" false; mkDirEntry "web.yml" false]
           eq_refl eq_refl).
  apply perm_swap.
Defined.

(** X3. A regular file named [base.yaml] or [base.yml], whatever [base]
    is (dots and slashes included), is listed as [base]. *)
Theorem listTargets_lists_profile
    (ReadDir : string -> Result (list DirEntry)) (dir : string)
    (entries : list DirEntry) (base ext : string) :
  ReadDir dir = Ok entries ->
  ext = ".yaml" \/ ext = ".yml" ->
  In (mkDirEntry (base ++ ext) false) entries ->
  exists targets, listTargets ReadDir dir = Ok targets /\ In base targets.
Proof.
  intros Hread Hext Hin.
  rewrite listTargets_eq, Hread.
  eexists. split; [reflexivity |].
  apply (Permutation_in _ (Permutation_sym (Strings_perm _))).
  destruct (lower_profile_kept base ext Hext) as [Hk Ht].
  apply in_map_iff. exists (mkDirEntry (base ++ ext) false).
  split; [exact Ht |].
  apply filter_In. now split.
Qed.

Lemma listTargets_lists_profile_witness :
  exists targets,
    listTargets (fun _ => Ok [mkDirEntry "db.prod.yaml" false]) "hosts"
    = Ok targets /\ In "db.prod" targets.
Proof.
  apply (listTargets_lists_profile
           (fun _ => Ok [mkDirEntry "db.prod.yaml" false]) "hosts"
           [mkDirEntry "db.prod.yaml" false] "db.prod" ".yaml" eq_refl).
  - left. reflexivity.
  - left. reflexivity.
Defined.

(** X4. Every listed target comes from a regular file of the directory:
    it is the name of that file without a final [.yaml] or [.yml], or
    the whole name of the file (when the extension is not written in
    lower case). *)
Theorem listTargets_targets_are_files
    (ReadDir : string -> Result (list DirEntry)) (dir : string)
    (targets : list string) (t : string) :
  listTargets ReadDir dir = Ok targets ->
  In t targets ->
  exists entries e,
    ReadDir dir = Ok entries /\ In e entries /\ IsDir e = false
    /\ (Name e = (t ++ ".yaml")%string \/ Name e = (t ++ ".yml")%string
        \/ Name e = t).
Proof.
  rewrite listTargets_eq.
  destruct (ReadDir dir) as [entries | err]; [| discriminate].
  intros H Hin. inversion H; subst targets; clear H.
  apply (Permutation_in _ (Strings_perm _)) in Hin.
  apply in_map_iff in Hin as (e & Ht & He).
  apply filter_In in He as [He Hk].
  exists entries, e. split; [reflexivity |]. split; [exact He |].
  unfold is_profile in Hk. apply andb_prop in Hk as [Hd Hext].
  split; [now apply negb_true_iff in Hd |].
  cbv zeta in Hext. unfold target_of in Ht.
  destruct (strings.HasSuffix (Name e)
              (strings.ToLower (filepath.Ext (Name e)))) eqn:Hs.
  - apply HasSuffix_split in Hs. rewrite Ht in Hs.
    apply orb_prop in Hext as [E | E]; apply String.eqb_eq in E;
      rewrite E in Hs; auto.
  - unfold strings.TrimSuffix in Ht. rewrite Hs in Ht. auto.
Qed.

Lemma listTargets_targets_are_files_witness :
  exists entries e,
    (fun _ : string => Ok [mkDirEntry "ipa.yaml" false]) "hosts" = Ok entries
    /\ In e entries /\ IsDir e = false
    /\ (Name e = "ipa.yaml" \/ Name e = "ipa.yml" \/ Name e = "ipa").
Proof.
  apply (listTargets_targets_are_files
           (fun _ => Ok [mkDirEntry "ipa.yaml" false]) "hosts" ["ipa"] "ipa"
           eq_refl).
  left. reflexivity.
Defined.

(** ** Command renderer: reading back and composing *)

Lemma read_quoted_escape (s : string) :
  read_quoted (escape s ++ String dquote "") = Some s.
Proof.
  induction s as [| c s IH]; [reflexivity |].
  cbn [escape]. unfold escape_byte. rewrite string_app_assoc.
  destruct (Ascii.eqb_spec c backslash) as [-> | Nb].
  - cbn [append read_quoted].
    change (Ascii.eqb backslash dquote) with false.
    change (Ascii.eqb backslash backslash) with true.
    cbv iota. now rewrite IH.
  - destruct (Ascii.eqb_spec c dquote) as [-> | Nq].
    + cbn [append read_quoted].
      change (Ascii.eqb backslash dquote) with false.
      change (Ascii.eqb backslash backslash) with true.
      cbv iota. now rewrite IH.
    + cbn [append read_quoted].
      apply Ascii.eqb_neq in Nb, Nq. now rewrite Nq, Nb, IH.
Qed.

(** X5. What [quote] writes can be read back: a reader that takes the
    text between the outer double quotes, a backslash protecting the
    byte after it, finds the closing double quote at the very end and
    returns the argument that was quoted. *)
Theorem unquote_quote (s : string) : unquote (quote s) = Some s.
Proof.
  rewrite quote_escape. cbn [append unquote].
  change (Ascii.eqb dquote dquote) with true. cbv iota.
  apply read_quoted_escape.
Qed.

Lemma concat_nested (sep a : string) (l1 l2 : list string) :
  String.concat sep ((a :: l1) ++ l2)
  = String.concat sep (String.concat sep (a :: l1) :: l2).
Proof.
  revert a.
  induction l1 as [| b l1 IH]; intro a; [reflexivity |].
  change (String.concat sep ((a :: b :: l1) ++ l2))
    with (a ++ sep ++ String.concat sep ((b :: l1) ++ l2))%string.
  rewrite IH.
  change (String.concat sep (a :: b :: l1))
    with (a ++ sep ++ String.concat sep (b :: l1))%string.
  destruct l2 as [| c l2]; [reflexivity |].
  cbn [String.concat]. now rewrite !string_app_assoc.
Qed.

(** X6. Rendering composes: the rendering of a command with the
    arguments [xs] followed by [ys] is the rendering of [ys] after the
    rendering of the command with [xs], taken as a command name; the
    command name itself is never quoted. *)
Theorem renderCommand_app (cmd : string) (xs ys : list string) :
  renderCommand cmd (xs ++ ys) = renderCommand (renderCommand cmd xs) ys.
Proof.
  rewrite !renderCommand_shown, map_app.
  apply (concat_nested " " cmd (map shown xs) (map shown ys)).
Qed.

(** ** From validation to the arguments *)

(** X7. The arguments built from a profile that passed validation carry
    the option [-p] exactly when the merged port is positive and not 22,
    and then with the merged port; the destination is never empty. *)
Theorem validated_args (cfg cfg' : HostConfig) (tr : list Event)
    (remoteCmd : list string) :
  validate cfg = (tr, Ret cfg') ->
  buildSSHArgs cfg' remoteCmd
  = (if String.eqb (Identity cfg) "" then [] else ["-i"; Identity cfg])
    ++ (if (Port cfg <=? 0)%Z || (Port cfg =? 22)%Z then []
        else ["-p"; fmt.Sprintf_d (Port cfg)])
    ++ [if String.eqb (User cfg) "" then Host cfg
        else (User cfg ++ "@" ++ Host cfg)%string]
    ++ remoteCmd
  /\ Host cfg <> "" /\ Host cfg' = Host cfg /\ (0 < Port cfg')%Z.
Proof.
  rewrite validate_eq.
  destruct (String.eqb_spec (Host cfg) "") as [E | N]; [discriminate |].
  intro H. inversion H; subst cfg' tr; clear H.
  split; [| split; [exact N | split; [reflexivity |]]].
  - unfold buildSSHArgs. cbn [Identity Port User Host].
    destruct (Z.leb_spec (Port cfg) 0) as [L | L].
    + cbn.
      destruct (String.eqb (Identity cfg) ""), (String.eqb (User cfg) "");
        destruct remoteCmd; cbn; rewrite ?app_nil_r; reflexivity.
    + assert (Z0 : (Port cfg =? 0)%Z = false) by (apply Z.eqb_neq; lia).
      rewrite Z0. cbn [negb andb orb].
      destruct (String.eqb (Identity cfg) ""), (Port cfg =? 22)%Z,
        (String.eqb (User cfg) "");
        destruct remoteCmd; cbn; rewrite ?app_nil_r; reflexivity.
  - cbn. destruct (Z.leb_spec (Port cfg) 0); lia.
Qed.

Lemma validated_args_witness :
  buildSSHArgs (coerced (mkHostConfig "h" "" (-7) "")) ["id"] = ["h"; "id"].
Proof.
  exact (proj1 (validated_args (mkHostConfig "h" "" (-7) "")
                  (coerced (mkHostConfig "h" "" (-7) "")) [] ["id"] eq_refl)).
Defined.

(** ** The whole run *)

Lemma invoke_eq (w : World) (sshArgs : list string) :
  invoke w sshArgs
  = match exec_LookPath w "ssh" with
    | Err e =>
        ([Stderr ("error: " ++ ("ssh client not found in PATH. Install OpenSSH client and ensure 'ssh' is available: " ++ e) ++ newline)],
         Exit 1)
    | Ok _ =>
        match cmd_Run w "ssh" sshArgs with
        | RunOk => ([Run "ssh" sshArgs], Ret tt)
        | RunExitError code => ([Run "ssh" sshArgs], Exit code)
        | RunError e =>
            ([Run "ssh" sshArgs;
              Stderr ("error: " ++ ("ssh execution failed: " ++ e) ++ newline)],
             Exit 1)
        end
    end.
Proof.
  unfold invoke.
  destruct (exec_LookPath w "ssh"); [| reflexivity].
  destruct (cmd_Run w "ssh" sshArgs); reflexivity.
Qed.

(** The run of [main], case by case. *)
Lemma main_eq (cl : CommandLine) (w : World) :
  main cl w
  = match os_UserHomeDir w with
    | Err e => ([banner; Stderr ("error: " ++ e ++ newline)], Exit 1)
    | Ok homeDir =>
        if flagList cl
        then (banner :: match flat_map (listing w) (configDirs cl w homeDir) with
                        | [] => [no_targets]
                        | lines => lines
                        end,
              Exit 0)
        else
          match resolve cl w (configDirs cl w homeDir) with
          | (tr, Exit code) => (banner :: tr, Exit code)
          | (tr, Ret cfg) =>
              if String.eqb (Host cfg) ""
              then (banner :: tr ++ [Stderr host_required], Exit 1)
              else
                let sshArgs := buildSSHArgs (coerced cfg) (Args cl) in
                let echo :=
                  if flagDryRun cl || flagVerbose cl
                  then [Stdout (renderCommand "ssh" sshArgs ++ newline)]
                  else [] in
                if flagDryRun cl then (banner :: tr ++ echo, Ret tt)
                else (banner :: tr ++ echo ++ fst (invoke w sshArgs),
                      snd (invoke w sshArgs))
          end
    end.
Proof.
  rewrite main_resolve.
  destruct (os_UserHomeDir w) as [homeDir | e]; [| reflexivity].
  cbn [must]. rewrite bind_ret_l.
  destruct (flagList cl).
  - rewrite listMode_eq. reflexivity.
  - rewrite bind_ret_l.
    destruct (resolve cl w (configDirs cl w homeDir)) as [tr [cfg | code]];
      [| reflexivity].
    unfold Println at 1. cbn [bind emit app].
    rewrite validate_eq.
    destruct (String.eqb (Host cfg) ""); [reflexivity |].
    fold (coerced cfg). cbv zeta. cbn [bind app].
    destruct (flagDryRun cl), (flagVerbose cl); cbn [orb];
      unfold Println; cbn [bind emit ret app fst snd];
      rewrite ?app_nil_r; try reflexivity;
      destruct (invoke w _) as [ti r]; cbn [fst snd]; reflexivity.
Qed.

Lemma listing_stdout (w : World) (dirs : list string) (e : Event) :
  In e (flat_map (listing w) dirs) -> exists line, e = Stdout line.
Proof.
  intro H. apply in_flat_map in H as (dir & _ & H).
  unfold listing in H.
  destruct (listTargets (os_ReadDir w) dir) as [ts | err]; [| contradiction].
  apply in_map_iff in H as (t & <- & _). now eexists.
Qed.

Lemma list_lines_stdout (w : World) (dirs : list string) (e : Event) :
  In e (match flat_map (listing w) dirs with
        | [] => [no_targets]
        | lines => lines
        end) ->
  exists line, e = Stdout line.
Proof.
  destruct (flat_map (listing w) dirs) as [| x l] eqn:E.
  - intros [<- | []]. now eexists.
  - rewrite <- E. apply listing_stdout.
Qed.

Lemma existsb_false_stdout (P : Event -> bool) (l : list Event) :
  (forall line, P (Stdout line) = false) ->
  (forall e, In e l -> exists line, e = Stdout line) ->
  existsb P l = false.
Proof.
  intros HP Hl.
  induction l as [| x l IH]; [reflexivity |].
  simpl. destruct (Hl x (or_introl eq_refl)) as [line ->].
  rewrite HP. apply IH. intros e He. apply Hl. now right.
Qed.

(** X8. When the home directory cannot be determined, every run, list
    mode and dry run included, ends with status 1 right after the
    version line and the error line. *)
Theorem main_without_home (cl : CommandLine) (w : World) (e : string) :
  os_UserHomeDir w = Err e ->
  main cl w = ([banner; Stderr ("error: " ++ e ++ newline)], Exit 1).
Proof. intro H. now rewrite main_eq, H. Qed.

Lemma main_without_home_witness :
  main list_flags homeless_world
  = ([banner; Stderr ("error: $HOME is not defined" ++ newline)], Exit 1).
Proof. exact (main_without_home list_flags homeless_world _ eq_refl). Defined.



(** The events of a resolution are the reading of the profile and, when it
    fails, the error line; a failed resolution ends with status 1. *)
Lemma resolve_cases (cl : CommandLine) (w : World) (dirs : list string) :
  (exists cfg, resolve cl w dirs = ([], Ret cfg))
  \/ (exists cfg,
         resolve cl w dirs
         = ([ReadInConfig (flagTarget cl) (searchPaths dirs)], Ret cfg))
  \/ (exists msg,
         resolve cl w dirs
         = ([ReadInConfig (flagTarget cl) (searchPaths dirs);
             Stderr ("error: " ++ msg ++ newline)], Exit 1)).
Proof.
  rewrite resolve_eq.
  destruct (String.eqb (flagTarget cl) ""); [left; now eexists |].
  destruct (viper_readConfig w (flagTarget cl) "yaml" (searchPaths dirs))
    as [m | e].
  - right; left. now eexists.
  - right; right.
    exists ("failed to read config for target '" ++ flagTarget cl
            ++ "': " ++ e)%string.
    now rewrite !string_app_assoc.
Qed.

(** Case analysis of a run of [main], down to the result of ssh. *)
Ltac split_main cl w :=
  rewrite main_eq;
  destruct (os_UserHomeDir w) as [?homeDir | ?e] eqn:?Hhome;
  [ destruct (flagList cl) eqn:?Hlist;
    [ | match goal with
        | |- context [resolve cl w ?dirs] =>
            let R := fresh "R" in
            destruct (resolve_cases cl w dirs)
              as [[?cfg R] | [[?cfg R] | [?msg R]]];
            rewrite R
        end;
        try match goal with
            | |- context [String.eqb (Host ?c) ""] =>
                destruct (String.eqb (Host c) "") eqn:?Hhost;
                [ | cbv zeta;
                    destruct (flagDryRun cl) eqn:?Hdry;
                    destruct (flagVerbose cl) eqn:?Hverbose;
                    cbn [orb];
                    try (rewrite invoke_eq;
                         destruct (exec_LookPath w "ssh") eqn:?Hlook;
                         [ match goal with
                           | |- context [cmd_Run w "ssh" ?a] =>
                               destruct (cmd_Run w "ssh" a) eqn:?Hrun
                           end | ]) ]
            end ]
  | ];
  cbn [fst snd app trace exit_status].





(** X12. When ssh is not found on the search path it is never started,
    and outside list mode and dry run the run ends with status 1. *)
Theorem main_without_ssh (cl : CommandLine) (w : World) (e : string) :
  exec_LookPath w "ssh" = Err e ->
  existsb is_Run (trace (main cl w)) = false
  /\ (flagList cl = false -> flagDryRun cl = false ->
      exit_status (main cl w) = 1%Z).
Proof.
  intro Hl. split_main cl w; try congruence;
    try (split; [reflexivity | congruence || reflexivity]).
  split; [| congruence]. cbn [existsb is_Run banner orb].
  apply existsb_false_stdout; [reflexivity | apply list_lines_stdout].
Qed.

Lemma main_without_ssh_witness :
  existsb is_Run (trace (main verbose_flags no_ssh_world)) = false
  /\ (flagList verbose_flags = false -> flagDryRun verbose_flags = false ->
      exit_status (main verbose_flags no_ssh_world) = 1%Z).
Proof.
  exact (main_without_ssh verbose_flags no_ssh_world _ eq_refl).
Defined.






(** X15. Whatever is started is ssh with a validated profile: an event
    that starts a process occurs outside list mode and dry run only,
    names [ssh], and carries the arguments built from a profile with a
    non-empty host and a positive port; in verbose mode the rendering of
    exactly these arguments is printed in the same run. *)
Theorem main_runs_ssh_only (cl : CommandLine) (w : World)
    (name : string) (args : list string) :
  In (Run name args) (trace (main cl w)) ->
  name = "ssh"
  /\ flagList cl = false
  /\ flagDryRun cl = false
  /\ (exists cfg,
         Host cfg <> "" /\ (0 < Port cfg)%Z
         /\ args = buildSSHArgs cfg (Args cl))
  /\ (flagVerbose cl = true ->
      In (Stdout (renderCommand "ssh" args ++ newline)) (trace (main cl w))).
Proof.
  split_main cl w; intro Hin;
    try (cbn [In] in Hin;
         repeat match goal with
                | H : _ \/ _ |- _ => destruct H
                | H : False |- _ => contradiction H
                | H : banner = Run _ _ |- _ => discriminate H
                | H : Stdout _ = Run _ _ |- _ => discriminate H
                | H : Stderr _ = Run _ _ |- _ => discriminate H
                | H : ReadInConfig _ _ = Run _ _ |- _ => discriminate H
                | H : Run _ _ = Run _ _ |- _ => inversion H; subst; clear H
                end;
         match goal with
         | Hh : String.eqb (Host ?c) "" = false |- _ =>
             apply String.eqb_neq in Hh;
             split; [reflexivity |];
             split; [reflexivity |];
             split; [reflexivity |];
             split;
             [ exists (coerced c); repeat split;
               [ exact Hh
               | cbn; destruct (Z.leb_spec (Port c) 0); lia ]
             | intro Hv; try discriminate Hv; cbn [In]; tauto ]
         end).
  destruct Hin as [Hin | Hin]; [discriminate Hin |].
  apply list_lines_stdout in Hin as [line Hin]. discriminate Hin.
Qed.

Lemma main_runs_ssh_only_witness :
  "ssh" = "ssh"
  /\ flagList verbose_flags = false
  /\ flagDryRun verbose_flags = false
  /\ (exists cfg,
         Host cfg <> "" /\ (0 < Port cfg)%Z
         /\ ["foo"; "uptime"] = buildSSHArgs cfg (Args verbose_flags))
  /\ (flagVerbose verbose_flags = true ->
      In (Stdout (renderCommand "ssh" ["foo"; "uptime"] ++ newline))
         (trace (main verbose_flags sample_world))).
Proof.
  apply (main_runs_ssh_only verbose_flags sample_world "ssh" ["foo"; "uptime"]).
  right; right; left; reflexivity.
Defined.

(** X16. List mode does not merge the candidate directories: when the
    directory given by [--config] is the [hosts] directory of the home
    directory, its targets are printed twice. *)
Theorem list_mode_same_directory (cl : CommandLine) (w : World)
    (homeDir : string) :
  flagList cl = true ->
  os_UserHomeDir w = Ok homeDir ->
  flagConfigDir cl = filepath_Join w homeDir "hosts" ->
  main cl w
  = (banner :: match listing w (flagConfigDir cl)
                     ++ listing w (flagConfigDir cl) with
               | [] => [no_targets]
               | lines => lines
               end,
     Exit 0).
Proof.
  intros Hlist Hhome Hsame.
  rewrite main_eq, Hhome, Hlist. unfold configDirs.
  rewrite <- Hsame. cbn [flat_map]. now rewrite app_nil_r.
Qed.

Lemma list_mode_same_directory_witness :
  main (mkCommandLine None (Some "/home/u/hosts") None None None None
                      (Some true) None None [])
       sample_world
  = ([banner;
      target_line "/home/u/hosts" "ipa"; target_line "/home/u/hosts" "web";
      target_line "/home/u/hosts" "ipa"; target_line "/home/u/hosts" "web"],
     Exit 0).
Proof.
  exact (list_mode_same_directory
           (mkCommandLine None (Some "/home/u/hosts") None None None None
                          (Some true) None None [])
           sample_world "/home/u" eq_refl eq_refl eq_refl).
Defined.
